(** * source-to-llm: the directory walker of [index.js]

    A shallow embedding of the traversal-and-filtering core of
    [index.js] ([loadGitignore], [traverseDirectory] and the part of
    [main] that seeds the output and starts the walk), with the
    properties of its specification stated and proved over it.

    Conventions.
    - A JavaScript string is a [string]: a sequence of 8-bit characters.
      The tree connectors of the source, which lie outside ASCII, are the
      UTF-8 bytes of the source's literals.
    - Paths are POSIX paths ([/] is the separator).
    - The file system is a finite tree ([Node]); what [fs.readdir] and
      [fs.readFile] answer is part of the tree.
    - [console.log] and [console.warn] append to a console, which is part
      of the state next to the two output buffers.
    - An exception raised inside the walk is the result [Thrown]. *)

From Stdlib Require Import String Ascii List Bool Arith Lia.
Import ListNotations.
Local Open Scope list_scope.
Local Open Scope string_scope.

(** ** Strings, as the JavaScript code uses them *)

Module JS.

(** [s.startsWith(p)] *)
Fixpoint startsWith (p s : string) : bool :=
  match p with
  | "" => true
  | String a p' =>
      match s with
      | "" => false
      | String b s' => Ascii.eqb a b && startsWith p' s'
      end
  end.

(** [s.includes(needle)] *)
Fixpoint includes (needle s : string) : bool :=
  startsWith needle s
  || match s with
     | "" => false
     | String _ s' => includes needle s'
     end.

(** [s.replace(/needle/g, rep)] for a regular expression that is the
    literal, non-empty text [needle]: the occurrences are taken from left
    to right and do not overlap.  [skip] counts the characters of an
    occurrence that are still to be dropped. *)
Fixpoint replaceAll_from (needle rep : string) (skip : nat) (s : string) : string :=
  match s with
  | "" => ""
  | String c s' =>
      match skip with
      | S k => replaceAll_from needle rep k s'
      | O =>
          if startsWith needle s
          then rep ++ replaceAll_from needle rep (String.length needle - 1) s'
          else String c (replaceAll_from needle rep 0 s')
      end
  end.

Definition replaceAll (needle rep s : string) : string :=
  replaceAll_from needle rep 0 s.

(** [s.split(sep)] for a one-character separator: never the empty list. *)
Fixpoint split (sep : ascii) (s : string) : list string :=
  match s with
  | "" => [""]
  | String c s' =>
      if Ascii.eqb c sep then "" :: split sep s'
      else match split sep s' with
           | [] => [String c ""]
           | x :: xs => String c x :: xs
           end
  end.

(** [parts.join(sep)] *)
Fixpoint join (sep : string) (parts : list string) : string :=
  match parts with
  | [] => ""
  | [x] => x
  | x :: rest => x ++ sep ++ join sep rest
  end.

(** [s.endsWith("/")]-style test on the last character. *)
Fixpoint endsWithChar (c : ascii) (s : string) : bool :=
  match s with
  | "" => false
  | String a "" => Ascii.eqb a c
  | String _ s' => endsWithChar c s'
  end.

End JS.

(** ** [node:path], on normalised POSIX paths *)

Module Path.

Definition nonEmpty (s : string) : bool := negb (String.eqb s "").

(** The segments of a path: its parts between separators, empty parts
    dropped. *)
Definition segments (p : string) : list string :=
  filter nonEmpty (JS.split "/" p).

(** [path.join(dir, name)] for a normalised directory path and the plain
    name of one of its entries. *)
Definition join (dir name : string) : string :=
  if JS.endsWithChar "/" dir then dir ++ name else dir ++ "/" ++ name.

(** The common leading segments of two paths are dropped. *)
Fixpoint stripCommon (from to : list string) : list string * list string :=
  match from, to with
  | f :: from', t :: to' =>
      if String.eqb f t then stripCommon from' to' else (from, to)
  | _, _ => (from, to)
  end.

(** [path.relative(from, to)] for normalised absolute paths: one [..] for
    each segment of [from] below the common ancestor, then the segments of
    [to] below it. *)
Definition relative (from to : string) : string :=
  let '(up, down) := stripCommon (segments from) (segments to) in
  JS.join "/" (map (fun _ => "..") up ++ down)%list.

(** [path.basename(p)] *)
Definition basename (p : string) : string := last (segments p) "".

End Path.

(** ** Regular expressions: the dialect the whitelist produces

    [new RegExp(source)] is modelled for sources of the form [^ t1 ... tn $]
    where each term is an ordinary character, [.], [(.+)] or [([^/]+)].
    These are the sources that [traverseDirectory] builds from whitelist
    patterns made of ordinary characters, [.], [*] and [**].  For any other
    source [RegExp.create] answers [None]: the constructor raises a
    [SyntaxError] there, or builds an expression outside this dialect.
    A character is a byte.  Of the line terminators that [.] refuses, the
    line feed and the carriage return are modelled; the separators U+2028
    and U+2029, three bytes each in UTF-8, are not. *)

Module RegExp.

Inductive CharSet :=
| Dot        (* .     : any character but a line terminator *)
| NotSlash.  (* [^/]  : any character but the separator *)

Inductive Term :=
| Lit (c : ascii)
| One (cs : CharSet)
| Plus (cs : CharSet).   (* (cs+) *)

Definition t := list Term.

Definition isLineTerminator (c : ascii) : bool :=
  Ascii.eqb c "010" || Ascii.eqb c "013".

Definition inSet (cs : CharSet) (c : ascii) : bool :=
  match cs with
  | Dot => negb (isLineTerminator c)
  | NotSlash => negb (Ascii.eqb c "/")
  end.

(** The characters with a meaning of their own in a pattern. *)
Definition isSyntaxCharacter (c : ascii) : bool :=
  existsb (Ascii.eqb c)
    ["\"; "^"; "$"; "."; "*"; "+"; "?"; "("; ")"; "["; "]"; "{"; "}"; "|"]%char.

(** The terms of a source up to its closing [$]. *)
Fixpoint parseTerms (skip : nat) (s : string) : option t :=
  match s with
  | "" => None
  | String c s' =>
      match skip with
      | S k => parseTerms k s'
      | O =>
          if JS.startsWith "(.+)" s then
            option_map (cons (Plus Dot)) (parseTerms 3 s')
          else if JS.startsWith "([^/]+)" s then
            option_map (cons (Plus NotSlash)) (parseTerms 6 s')
          else if Ascii.eqb c "$" then
            (if String.eqb s' "" then Some [] else None)
          else if Ascii.eqb c "." then
            option_map (cons (One Dot)) (parseTerms 0 s')
          else if isSyntaxCharacter c then None
          else option_map (cons (Lit c)) (parseTerms 0 s')
      end
  end.

(** [new RegExp(source)] *)
Definition create (source : string) : option t :=
  match source with
  | String "^" body => parseTerms 0 body
  | _ => None
  end.

(** Does the whole of [s] match the terms? *)
Fixpoint matches (ts : t) (s : string) : bool :=
  match ts with
  | [] => String.eqb s ""
  | Lit c :: ts' =>
      match s with
      | "" => false
      | String d s' => Ascii.eqb c d && matches ts' s'
      end
  | One cs :: ts' =>
      match s with
      | "" => false
      | String d s' => inSet cs d && matches ts' s'
      end
  | Plus cs :: ts' =>
      (fix plus (s : string) : bool :=
         match s with
         | "" => false
         | String d s' => inSet cs d && (matches ts' s' || plus s')
         end) s
  end.

(** [regex.test(s)]: the expression is anchored at both ends. *)
Definition test (re : t) (s : string) : bool := matches re s.

End RegExp.

(** ** The [ignore] package *)

(** Modelled from the spec: the [ignore] package that [index.js] imports is
    not part of the repository.  The model follows section 4.1 of the
    specification: rules are kept in order and the last rule that matches a
    path decides; [!] negates; a trailing [/] restricts a rule to
    directories; a rule with a separator at its start or inside is anchored
    at the root, any other matches at every depth; [*] and [?] stay within a
    segment and [**] spans segments; a path below an ignored directory is
    ignored.  Character classes and backslash escapes are not modelled:
    their characters are taken literally. *)

Module Ignore.

Inductive GlobToken :=
| GLit (c : ascii)
| GStar
| GQuestion.

Inductive GlobSegment :=
| StarStar
| Segment (ts : list GlobToken).

Record Rule := mkRule
  { negative : bool;
    dirOnly : bool;
    glob : list GlobSegment }.

Definition t := list Rule.

Fixpoint parseTokens (s : string) : list GlobToken :=
  match s with
  | "" => []
  | String c s' =>
      (if Ascii.eqb c "*" then GStar
       else if Ascii.eqb c "?" then GQuestion
       else GLit c) :: parseTokens s'
  end.

Definition parseSegment (s : string) : GlobSegment :=
  if String.eqb s "**" then StarStar else Segment (parseTokens s).

Fixpoint dropLast (s : string) : string :=
  match s with
  | "" => ""
  | String _ "" => ""
  | String c s' => String c (dropLast s')
  end.

(** Modelled from the spec: the rule of one pattern of the [ignore]
    package.  A leading [!] makes it a negation, a trailing [/] restricts it
    to directories, a separator elsewhere anchors it at the root; a rule
    that is not anchored matches at every depth, as if it began with [**/]. *)
Definition createRule (pattern : string) : Rule :=
  let negative := JS.startsWith "!" pattern in
  let body := if negative then String.substring 1 (String.length pattern - 1) pattern
              else pattern in
  let dirOnly := JS.endsWithChar "/" body in
  let inner := if dirOnly then dropLast body else body in
  let anchored := JS.includes "/" inner in
  let segs := map parseSegment (Path.segments inner) in
  {| negative := negative;
     dirOnly := dirOnly;
     glob := if anchored then segs else StarStar :: segs |}.

(** One segment of a glob against one segment of a path: [*] stands for
    any run of characters, [?] for one. *)
Fixpoint matchSegment (ts : list GlobToken) (s : string) : bool :=
  match ts with
  | [] => String.eqb s ""
  | GLit c :: ts' =>
      match s with
      | "" => false
      | String d s' => Ascii.eqb c d && matchSegment ts' s'
      end
  | GQuestion :: ts' =>
      match s with
      | "" => false
      | String _ s' => matchSegment ts' s'
      end
  | GStar :: ts' =>
      (fix star (s : string) : bool :=
         matchSegment ts' s
         || match s with
            | "" => false
            | String _ s' => star s'
            end) s
  end.

(** Modelled from the spec: the glob of a rule against the segments of a
    path.  [**] before other segments spans any number of directories, also
    none; [**] at the end stands for everything inside. *)
Fixpoint matchSegments (ps : list GlobSegment) (names : list string) : bool :=
  match ps with
  | [] => match names with [] => true | _ => false end
  | StarStar :: ps' =>
      match ps' with
      | [] => match names with [] => false | _ => true end
      | _ =>
          (fix skip (names : list string) : bool :=
             matchSegments ps' names
             || match names with
                | [] => false
                | _ :: names' => skip names'
                end) names
      end
  | Segment ts :: ps' =>
      match names with
      | [] => false
      | n :: names' => matchSegment ts n && matchSegments ps' names'
      end
  end.

(** Modelled from the spec: does the rule of the [ignore] package match the
    path itself?  A path that ends with the separator names a directory. *)
Definition ruleTest (r : Rule) (p : string) : bool :=
  implb (dirOnly r) (JS.endsWithChar "/" p)
  && matchSegments (glob r) (Path.segments p).

Definition isBlank (s : string) : bool :=
  forallb (fun c => Ascii.eqb c " " || Ascii.eqb c "009")
          (list_ascii_of_string s).

(** Blank lines and comments are no rules. *)
Definition checkPattern (pattern : string) : bool :=
  negb (isBlank pattern) && negb (JS.startsWith "#" pattern).

(** Modelled from the spec: [ig.add(patterns)] of the [ignore] package for
    an array of patterns; the new rules come after those already there. *)
Definition add (ig : t) (patterns : list string) : t :=
  (ig ++ map createRule (filter checkPattern patterns))%list.

Definition stripCR (line : string) : string :=
  if JS.endsWithChar "013" line then dropLast line else line.

(** Modelled from the spec: [ig.add(content)] of the [ignore] package for
    the text of a rules file, one pattern a line. *)
Definition addContent (ig : t) (content : string) : t :=
  add ig (map stripCR (JS.split "010" content)).

(** Modelled from the spec: the verdict of the rules of the [ignore]
    package on one path, where the last matching rule wins. *)
Definition testOne (ig : t) (p : string) : bool :=
  fold_left (fun ignored r => if ruleTest r p then negb (negative r) else ignored)
            ig false.

(** The directories above a path, outermost first, each with its trailing
    separator. *)
Definition ancestors (p : string) : list string :=
  let names := Path.segments p in
  map (fun k => JS.join "/" (firstn k names) ++ "/")
      (seq 1 (List.length names - 1)).

(** Modelled from the spec: [ig.ignores(p)] of the [ignore] package.  A path
    is ignored when the rules ignore it or a directory above it. *)
Definition ignores (ig : t) (p : string) : bool :=
  existsb (testOne ig) (ancestors p) || testOne ig p.

End Ignore.

(** ** The file system and the state of a run *)

Inductive ReadResult :=
| Content (text : string)              (* fs.readFile resolves *)
| ReadError (code message : string).   (* fs.readFile rejects *)

(** An entry of a directory is a regular file with what reading it as text
    answers, a directory with its listing in the order [fs.readdir] gives
    it, a directory that cannot be listed, or something that is neither a
    file nor a directory (a symbolic link, a socket, ...). *)
#[warnings="-register-all"]
Inductive Node :=
| File (read : ReadResult)
| Dir (entries : list (string * Node))
| DirError (message : string)
| Other.

Inductive Level := LOG | WARN.

Definition Console := list (Level * string).

(** One more message on the console. *)
Definition say (level : Level) (message : string) (logged : Console) : Console :=
  (logged ++ [(level, message)])%list.

(** The [output] object of the source with its two buffers, and the
    console. *)
Record State := mkState
  { structure : string;
    contents : string;
    console : Console }.

(** A call returns, or raises; either way it leaves a state. *)
Inductive Result :=
| Done (st : State)
| Thrown (st : State).

Definition finalState (r : Result) : State :=
  match r with Done st | Thrown st => st end.

Definition appendStructure (text : string) (st : State) : State :=
  {| structure := structure st ++ text; contents := contents st; console := console st |}.

Definition appendContents (text : string) (st : State) : State :=
  {| structure := structure st; contents := contents st ++ text; console := console st |}.

Definition console_log (message : string) (st : State) : State :=
  {| structure := structure st; contents := contents st;
     console := say LOG message (console st) |}.

Definition console_warn (message : string) (st : State) : State :=
  {| structure := structure st; contents := contents st;
     console := say WARN message (console st) |}.

(** What the walk sees of an entry: a [Dirent] of [fs.readdir] with
    [withFileTypes], and under it the file's read result. *)
Inductive Kind :=
| KFile (read : ReadResult)
| KDirectory
| KOther.

Definition kindOf (n : Node) : Kind :=
  match n with
  | File r => KFile r
  | Dir _ | DirError _ => KDirectory
  | Other => KOther
  end.

Definition Walk := string -> string -> State -> Result.

(** An entry together with the walk of the directory it names.  The walk
    is attached before the entries are filtered so that the recursion of
    [traverseDirectory] is on the tree. *)
Record Dirent := mkDirent
  { name : string;
    kind : Kind;
    descend : Walk }.

Definition isDirectory (e : Dirent) : bool :=
  match kind e with KDirectory => true | _ => false end.

(** [array.some(f)] and [array.filter(f)] for a callback that may raise. *)
Fixpoint some {A} (f : A -> option bool) (l : list A) : option bool :=
  match l with
  | [] => Some false
  | x :: l' =>
      match f x with
      | None => None
      | Some true => Some true
      | Some false => some f l'
      end
  end.

Fixpoint filterEntries {A} (f : A -> option bool) (l : list A) : option (list A) :=
  match l with
  | [] => Some []
  | x :: l' =>
      match f x with
      | None => None
      | Some keep =>
          match filterEntries f l' with
          | None => None
          | Some kept => Some (if keep then x :: kept else kept)
          end
      end
  end.

(** The line feed, [\n] in the source. *)
Definition nl : string := String "010" "".

(** ** [traverseDirectory] *)

(** Convert glob pattern to regex: the source text given to [new RegExp]. *)
Definition regexSource (pattern : string) : string :=
  "^" ++ JS.replaceAll "*" "([^/]+)" (JS.replaceAll "**" "(.+)" pattern) ++ "$".

Section Traverse.

Variable rootDir : string.
Variable ig : string -> bool.              (* ig.ignores *)
Variable only : list string.
Variable includeContentsHeader : bool.

Definition relativePathOf (currentDir entryName : string) : string :=
  let absolutePath := Path.join currentDir entryName in
  Path.relative rootDir absolutePath.

Definition checkPathOf (currentDir entryName : string) (isDir : bool) : string :=
  let relativePath := relativePathOf currentDir entryName in
  if isDir then relativePath ++ "/" else relativePath.

Definition matchesOnly (checkPath : string) : option bool :=
  some (fun pattern =>
          match RegExp.create (regexSource pattern) with
          | None => None
          | Some regex => Some (RegExp.test regex checkPath)
          end) only.

(** The callback of [entries.filter]. *)
Definition isValidEntry (currentDir : string) (entry : Dirent) : option bool :=
  let checkPath := checkPathOf currentDir (name entry) (isDirectory entry) in
  if negb (Nat.eqb (List.length only) 0) then
    match matchesOnly checkPath with
    | None => None
    | Some false => Some false
    | Some true => Some (negb (ig checkPath))
    end
  else Some (negb (ig checkPath)).

(** The body of the loop over [validEntries], for the entry at index [i]
    of [len] valid entries. *)
Definition visitEntry (len i : nat) (entry : Dirent)
           (currentDir prefix : string) (st : State) : Result :=
  let absolutePath := Path.join currentDir (name entry) in
  let isLast := Nat.eqb i (len - 1) in
  let connector := if isLast then "└── " else "├── " in
  let newPrefix := prefix ++ (if isLast then "    " else "│   ") in
  let st := appendStructure (prefix ++ connector ++ name entry ++ nl) st in
  match kind entry with
  | KDirectory => descend entry absolutePath newPrefix st
  | KFile read =>
      let relativePath := Path.relative rootDir absolutePath in
      match read with
      | Content content =>
          let st := if includeContentsHeader
                    then appendContents (nl ++ "/* --- File: " ++ relativePath
                                         ++ " --- */" ++ nl ++ nl) st
                    else st in
          let st := appendContents content st in
          Done (appendContents nl st)
      | ReadError _ message =>
          if JS.includes "invalid" message || JS.includes "buffer" message
          then Done (console_log ("Skipping likely binary file: " ++ relativePath) st)
          else Done (console_warn ("Warning: Could not read file " ++ relativePath
                                   ++ ": " ++ message) st)
      end
  | KOther => Done st
  end.

(** [for (let i = 0; i < validEntries.length; i++)], from index [i] on. *)
Fixpoint forEntries (len i : nat) (entries : list Dirent)
         (currentDir prefix : string) (st : State) : Result :=
  match entries with
  | [] => Done st
  | entry :: rest =>
      match visitEntry len i entry currentDir prefix st with
      | Done st' => forEntries len (S i) rest currentDir prefix st'
      | Thrown st' => Thrown st'
      end
  end.

(** What follows a successful [fs.readdir]: the entries are filtered, the
    valid ones visited in order. *)
Definition traverseEntries (entries : list Dirent)
           (currentDir prefix : string) (st : State) : Result :=
  match filterEntries (isValidEntry currentDir) entries with
  | None => Thrown st
  | Some validEntries =>
      forEntries (List.length validEntries) 0 validEntries currentDir prefix st
  end.

(** The [catch] of [fs.readdir]: a warning, and the call returns. *)
Definition readdirFailed (currentDir message : string) (st : State) : Result :=
  Done (console_warn ("Warning: Could not read directory " ++ currentDir
                      ++ ": " ++ message) st).

(** [dir] is what is found at [currentDir].  Listing what is not a
    directory fails like any other listing that fails. *)
Fixpoint traverseDirectory (dir : Node) (currentDir prefix : string)
         (st : State) {struct dir} : Result :=
  match dir with
  | Dir entries =>
      traverseEntries
        (map (fun e => {| name := fst e;
                          kind := kindOf (snd e);
                          descend := traverseDirectory (snd e) |}) entries)
        currentDir prefix st
  | DirError message => readdirFailed currentDir message st
  | File _ | Other =>
      readdirFailed currentDir
        ("ENOTDIR: not a directory, scandir '" ++ currentDir ++ "'") st
  end.

End Traverse.

(** ** [loadGitignore] and the walk as [main] starts it *)

Definition DEFAULT_STRUCTURE_FILENAME := "structure.txt".
Definition DEFAULT_CONTENTS_FILENAME := "contents.txt".

Definition ALWAYS_IGNORE : list string :=
  [".git"; "node_modules"; DEFAULT_STRUCTURE_FILENAME; DEFAULT_CONTENTS_FILENAME].

(** [gitignoreFile] is what reading [.gitignore] in the target directory
    answers.  The result is the ignore instance, and the console with the
    message of the call. *)
Definition loadGitignore (targetDir : string) (useGitignore : bool)
           (gitignoreFile : ReadResult) (logged : Console) : Ignore.t * Console :=
  let ig := Ignore.add [] ALWAYS_IGNORE in
  if useGitignore then
    let gitignorePath := Path.join targetDir ".gitignore" in
    match gitignoreFile with
    | Content gitignoreContent =>
        (Ignore.addContent ig gitignoreContent,
         say LOG ("Loaded rules from " ++ gitignorePath) logged)
    | ReadError code message =>
        if String.eqb code "ENOENT"
        then (ig, say LOG ".gitignore not found, using default ignore rules." logged)
        else (ig, say WARN ("Warning: Could not read .gitignore: " ++ message) logged)
    end
  else (ig, say LOG ".gitignore processing skipped as per configuration." logged).

(** The fields of the configuration that the walk reads. *)
Record Config := mkConfig
  { gitignore : bool;
    ignores : list string;
    only : list string;
    includeContentsHeader : bool }.

(** The defaults of [main] (step 2). *)
Definition defaultConfig : Config :=
  {| gitignore := true; ignores := []; only := []; includeContentsHeader := true |}.

(** [main], steps 6 to 8: load the ignore rules, initialise the output,
    traverse.  The steps before (arguments, configuration file, output
    directory, prompt) give [config], [targetDir] and the console [logged];
    step 9 writes the two buffers of the result to their files. *)
Definition main (config : Config) (targetDir : string) (gitignoreFile : ReadResult)
           (root : Node) (logged : Console) : Result :=
  let '(ig, logged) := loadGitignore targetDir (gitignore config) gitignoreFile logged in
  let ig := Ignore.add ig (ignores config) in
  let output :=
    {| structure := Path.basename targetDir ++ nl;
       contents := if includeContentsHeader config
                   then "/* --- Contents from directory: " ++ targetDir ++ " --- */" ++ nl
                   else "";
       console := logged |} in
  let output := console_log "Starting directory traversal..." output in
  traverseDirectory targetDir (Ignore.ignores ig) (only config)
                    (includeContentsHeader config) root targetDir "" output.

Definition ENOENT (path : string) : ReadResult :=
  ReadError "ENOENT" ("ENOENT: no such file or directory, open '" ++ path ++ "'").

(** ** The walk in the words of the specification *)

Definition direntOf (rootDir : string) (ig : string -> bool) (only : list string)
           (includeContentsHeader : bool) (e : string * Node) : Dirent :=
  {| name := fst e;
     kind := kindOf (snd e);
     descend := traverseDirectory rootDir ig only includeContentsHeader (snd e) |}.

Definition isDir (n : Node) : bool :=
  match kindOf n with KDirectory => true | _ => false end.

(** A whitelist pattern whose regular expression is within the dialect of
    [RegExp]. *)
Definition patternOk (pattern : string) : bool :=
  match RegExp.create (regexSource pattern) with
  | Some _ => true
  | None => false
  end.

(** The whitelist filter: passed when there is no whitelist, or when one of
    its patterns matches the whole path. *)
Definition passesWhitelist (only : list string) (checkPath : string) : bool :=
  match only with
  | [] => true
  | _ => match matchesOnly only checkPath with
         | Some b => b
         | None => false
         end
  end.

(** An entry survives when it passes the whitelist and the rules do not
    ignore it; a directory is tested with the separator after its path. *)
Definition survives (rootDir : string) (ig : string -> bool) (only : list string)
           (currentDir : string) (e : string * Node) : bool :=
  let checkPath := checkPathOf rootDir currentDir (fst e) (isDir (snd e)) in
  passesWhitelist only checkPath && negb (ig checkPath).

(** The lines of the surviving entries of one directory, each entry given
    with the lines below it as a function of their prefix: every entry but
    the last has the connector [├── ] and a vertical bar in the prefix of
    what is below it, the last has [└── ] and blanks. *)
Fixpoint treeLines (prefix : string) (survivors : list (string * (string -> string)))
  : string :=
  match survivors with
  | [] => ""
  | (entryName, below) :: rest =>
      match rest with
      | [] => prefix ++ "└── " ++ entryName ++ nl ++ below (prefix ++ "    ")
      | _ => prefix ++ "├── " ++ entryName ++ nl ++ below (prefix ++ "│   ")
             ++ treeLines prefix rest
      end
  end.

(** The structure text below a directory. *)
Fixpoint structureOf (rootDir : string) (ig : string -> bool) (only : list string)
         (dir : Node) (currentDir prefix : string) {struct dir} : string :=
  match dir with
  | Dir entries =>
      treeLines prefix
        (flat_map (fun e =>
                     if survives rootDir ig only currentDir e
                     then [(fst e, structureOf rootDir ig only (snd e)
                                               (Path.join currentDir (fst e)))]
                     else [])
                  entries)
  | _ => ""
  end.

(** The per-file header as the walk writes it. *)
Definition fileHeader (relativePath : string) : string :=
  nl ++ "/* --- File: " ++ relativePath ++ " --- */" ++ nl ++ nl.

(** The per-file header in the words of the specification: the comment,
    then a blank line. *)
Definition specFileHeader (relativePath : string) : string :=
  "/* --- File: " ++ relativePath ++ " --- */" ++ nl ++ nl.

Definition documentHeader (dir : string) : string :=
  "/* --- Contents from directory: " ++ dir ++ " --- */" ++ nl.

(** What a surviving file adds to the contents text: its header when the
    flag is set, its text and a newline when it could be read, nothing
    otherwise. *)
Definition fileText (includeContentsHeader : bool) (relativePath : string)
           (read : ReadResult) : string :=
  match read with
  | Content content =>
      (if includeContentsHeader then fileHeader relativePath else "") ++ content ++ nl
  | ReadError _ _ => ""
  end.

(** The contents text below a directory: what the surviving entries add,
    in the order of the listing, a directory adding what is below it. *)
Fixpoint contentsOf (rootDir : string) (ig : string -> bool) (only : list string)
         (includeContentsHeader : bool) (dir : Node) (currentDir : string)
         {struct dir} : string :=
  match dir with
  | Dir entries =>
      fold_right append ""
        (flat_map (fun e =>
                     if survives rootDir ig only currentDir e
                     then [match kindOf (snd e) with
                           | KFile read =>
                               fileText includeContentsHeader
                                        (relativePathOf rootDir currentDir (fst e)) read
                           | KDirectory =>
                               contentsOf rootDir ig only includeContentsHeader (snd e)
                                          (Path.join currentDir (fst e))
                           | KOther => ""
                           end]
                     else [])
                  entries)
  | _ => ""
  end.

(** Is the name one of the built-in always-ignored names? *)
Definition alwaysIgnored (entryName : string) : bool :=
  existsb (String.eqb entryName) ALWAYS_IGNORE.

(** The tree without the entries that bear an always-ignored name, at
    every depth. *)
Fixpoint withoutAlwaysIgnored (n : Node) : Node :=
  match n with
  | Dir entries =>
      Dir (flat_map (fun e =>
                       if alwaysIgnored (fst e) then []
                       else [(fst e, withoutAlwaysIgnored (snd e))])
                    entries)
  | _ => n
  end.

(** The rules that a run adds after the built-in ones: those of the
    [.gitignore] file when it is used and could be read, then those of the
    configuration. *)
Definition userRules (config : Config) (gitignoreFile : ReadResult) : Ignore.t :=
  ((if gitignore config
    then match gitignoreFile with
         | Content gitignoreContent => Ignore.addContent [] gitignoreContent
         | ReadError _ _ => []
         end
    else [])
   ++ Ignore.add [] (ignores config))%list.

(** [dir] is the root of the walk or lies below it. *)
Definition inside (rootDir dir : string) : Prop :=
  exists below, Path.segments dir = (Path.segments rootDir ++ below)%list.

(** The buffers of [st'] are those of [st] with text appended. *)
Definition extends (st st' : State) : Prop :=
  (exists text, structure st' = structure st ++ text)
  /\ (exists text, contents st' = contents st ++ text).

(** A walk that only appends to the buffers. *)
Definition growing (w : Walk) : Prop :=
  forall currentDir prefix st, extends st (finalState (w currentDir prefix st)).

(** Induction on the tree, with the hypothesis for every entry of a
    listing. *)
Section NodeInduction.

Variable P : Node -> Prop.
Hypothesis onFile : forall read, P (File read).
Hypothesis onDir :
  forall entries, Forall (fun e => P (snd e)) entries -> P (Dir entries).
Hypothesis onDirError : forall message, P (DirError message).
Hypothesis onOther : P Other.

Fixpoint Node_induction (n : Node) : P n :=
  match n with
  | File read => onFile read
  | Dir entries =>
      onDir entries
            ((fix all (l : list (string * Node)) : Forall (fun e => P (snd e)) l :=
                match l with
                | [] => Forall_nil _
                | e :: l' => Forall_cons e (Node_induction (snd e)) (all l')
                end) entries)
  | DirError message => onDirError message
  | Other => onOther
  end.

End NodeInduction.

(** ** Scenarios of the specification *)

Definition targetDir : string := "/home/user/root".

Definition noGitignore : ReadResult := ENOENT (Path.join targetDir ".gitignore").

(** A tree with [src/a.txt], [src/nested/b.txt] and [lib/c.txt]. *)
Definition srcLibTree : Node :=
  Dir [("src", Dir [("a.txt", File (Content "alpha"));
                    ("nested", Dir [("b.txt", File (Content "beta"))])]);
       ("lib", Dir [("c.txt", File (Content "gamma"))])].

Definition onlySrcConfig : Config :=
  {| gitignore := true; ignores := []; only := ["src/**"];
     includeContentsHeader := true |}.

(** [a.txt] ("hello"), [b/c.txt] ("world") and a [.git] directory, which
    the listing gives at position [k] (0, 1 or anything above). *)
Definition helloWorldTree (k : nat) (dotGit : list (string * Node)) : Node :=
  let a := ("a.txt", File (Content "hello")) in
  let b := ("b", Dir [("c.txt", File (Content "world"))]) in
  let g := (".git", Dir dotGit) in
  Dir (match k with
       | 0 => [g; a; b]
       | 1 => [a; g; b]
       | _ => [a; b; g]
       end).

(** A configuration whose extra patterns take [node_modules] back, and a
    tree with a [node_modules] directory. *)
Definition unignoreConfig : Config :=
  {| gitignore := true; ignores := ["!node_modules"]; only := [];
     includeContentsHeader := true |}.

Definition depsTree : Node :=
  Dir [("index.js", File (Content "app"));
       ("node_modules", Dir [("dep.js", File (Content "dep"))])].

(** The claim that the always-ignored names are in no output, whatever the
    configuration without whitelist: the run is the run over the tree
    without the entries of these names. *)
Definition alwaysIgnoredNeverAppear : Prop :=
  forall config dir gitignoreFile root logged,
    only config = [] ->
    main config dir gitignoreFile root logged
    = main config dir gitignoreFile (withoutAlwaysIgnored root) logged.

(** What [fs.readFile] with the encoding [utf-8] answers for a byte that
    is no text: the replacement character U+FFFD, here in UTF-8.  Such a
    read does not reject. *)
Definition replacementCharacter : string :=
  String "239" (String "191" (String "189" "")).

(** A file [logo.png] whose bytes are those of the start of a PNG image,
    0x89 and [PNG], as the read answers it: 0x89 is no text. *)
Definition binaryTree : Node :=
  Dir [("logo.png", File (Content (replacementCharacter ++ "PNG")))].

(** Rules that ignore nothing. *)
Definition neverIgnored (p : string) : bool := false.

(** A tree with an unreadable directory and an unreadable file before a
    readable file. *)
Definition brokenTree : Node :=
  Dir [("locked", DirError "EACCES: permission denied, scandir '/home/user/root/locked'");
       ("gone.txt", File (ReadError "ENOENT" "ENOENT: no such file or directory, open"));
       ("z.txt", File (Content "zed"))].

(** The extra pattern [*.log] and nothing else. *)
Definition logsIgnoredConfig : Config :=
  {| gitignore := true; ignores := ["*.log"]; only := [];
     includeContentsHeader := false |}.

(** A [.gitignore] file and a tree that holds the built-in names. *)
Definition gitignoreText : ReadResult :=
  Content ("# build output" ++ nl ++ "/build" ++ nl ++ nl ++ "*.tmp" ++ nl).

Definition projectTree : Node :=
  Dir [(".git", Dir [("HEAD", File (Content "ref: refs/heads/main"))]);
       ("src", Dir [("index.js", File (Content "app"));
                    ("node_modules", Dir [("dep.js", File (Content "dep"))]);
                    ("contents.txt", File (Content "old"))]);
       ("structure.txt", File (Content "old"))].


(** ** Whitelist patterns, by their form *)

(** The carriage return, [\r] in the source. *)
Definition cr : string := String "013" "".

(** A pattern made of ordinary characters only: none that a regular
    expression or the glob conversion gives a meaning to. *)
Fixpoint literal (s : string) : bool :=
  match s with
  | "" => true
  | String c s' => negb (RegExp.isSyntaxCharacter c) && literal s'
  end.

(** Are all characters of the text in the set? *)
Fixpoint allIn (cs : RegExp.CharSet) (s : string) : bool :=
  match s with
  | "" => true
  | String c s' => RegExp.inSet cs c && allIn cs s'
  end.

(** A term that cannot stand for the separator. *)
Definition termRejectsSeparator (t : RegExp.Term) : bool :=
  match t with
  | RegExp.Lit c => negb (Ascii.eqb c "/")
  | RegExp.One RegExp.NotSlash | RegExp.Plus RegExp.NotSlash => true
  | RegExp.One RegExp.Dot | RegExp.Plus RegExp.Dot => false
  end.

(** An expression whose last term cannot stand for the separator. *)
Fixpoint rejectsSeparatorAtEnd (ts : RegExp.t) : bool :=
  match ts with
  | [] => false
  | t :: ts' =>
      match ts' with
      | [] => termRejectsSeparator t
      | _ => rejectsSeparatorAtEnd ts'
      end
  end.

(** A whitelist pattern whose expression is within the dialect and ends
    with a term that cannot stand for the separator: the pattern ends with
    an ordinary character other than the separator, or with a single [*]. *)
Definition endsOffSeparator (pattern : string) : bool :=
  match RegExp.create (regexSource pattern) with
  | Some ts => rejectsSeparatorAtEnd ts
  | None => false
  end.

(** ** Trees and counts *)

(** A tree in which every directory can be listed and every file read. *)
Fixpoint readable (n : Node) : bool :=
  match n with
  | File (Content _) => true
  | File (ReadError _ _) => false
  | Dir entries => forallb (fun e => readable (snd e)) entries
  | DirError _ => false
  | Other => true
  end.

(** The tree with every file empty and readable. *)
Fixpoint withoutContents (n : Node) : Node :=
  match n with
  | File _ => File (Content "")
  | Dir entries => Dir (map (fun e => (fst e, withoutContents (snd e))) entries)
  | DirError _ | Other => n
  end.

(** The number of entries that survive the filters below a directory, at
    every depth that the walk reaches. *)
Fixpoint entriesListed (rootDir : string) (ig : string -> bool) (only : list string)
         (dir : Node) (currentDir : string) {struct dir} : nat :=
  match dir with
  | Dir entries =>
      list_sum
        (flat_map (fun e =>
                     if survives rootDir ig only currentDir e
                     then [S (entriesListed rootDir ig only (snd e)
                                            (Path.join currentDir (fst e)))]
                     else [])
                  entries)
  | _ => 0
  end.

(** The text is made of [n] lines, each one the prefix, a body without
    line feed, and a line feed. *)
Definition hasLines (prefix : string) (n : nat) (text : string) : Prop :=
  exists lines,
    text = fold_right append "" lines
    /\ List.length lines = n
    /\ Forall (fun line =>
                 exists body,
                   JS.includes nl body = false /\ line = prefix ++ body ++ nl)
              lines.

(** The number of line feeds of a text. *)
Fixpoint countLines (text : string) : nat :=
  match text with
  | "" => 0
  | String c text' => (if Ascii.eqb c "010" then 1 else 0) + countLines text'
  end.

(** A tree in which no name holds a line feed. *)
Fixpoint namesOnOneLine (n : Node) : bool :=
  match n with
  | Dir entries =>
      forallb (fun e => negb (JS.includes nl (fst e)) && namesOnOneLine (snd e)) entries
  | _ => true
  end.

(** The line separator U+2028 and the paragraph separator U+2029, in
    UTF-8. *)
Definition lineSeparator : string :=
  String "226" (String "128" (String "168" "")).

Definition paragraphSeparator : string :=
  String "226" (String "128" (String "169" "")).

(** A path that ends with an always-ignored name. *)
Definition endsWithAlwaysIgnored (p : string) : Prop :=
  exists above entryName,
    alwaysIgnored entryName = true
    /\ Path.segments p = (above ++ [entryName])%list.

(** A configuration that takes [keep.log] back from [*.log]. *)
Definition keepLogConfig : Config :=
  {| gitignore := true; ignores := ["*.log"; "!keep.log"]; only := [];
     includeContentsHeader := true |}.

(** The name of an entry of a directory: not empty, without separator. *)
Definition plainName (entryName : string) : bool :=
  negb (String.eqb entryName "") && negb (JS.includes "/" entryName).

(** ** [main], steps 0 to 3: the command line *)

(** What [main] is asked to do: print the help, print the version, write
    the default configuration file, or analyse a directory, with the first
    argument and the values of [--config] and [--output] when given. *)
Inductive Command :=
| PrintHelp
| PrintVersion
| InitConfig
| Analyze (inputArg configArg outputArg : option string).

(** [process.argv.includes(arg)] *)
Definition argvIncludes (argv : list string) (arg : string) : bool :=
  existsb (String.eqb arg) argv.

(** [process.argv.indexOf(arg)], with [None] for [-1]. *)
Fixpoint indexOf (arg : string) (argv : list string) : option nat :=
  match argv with
  | [] => None
  | a :: rest => if String.eqb a arg then Some 0 else option_map S (indexOf arg rest)
  end.

(** The argument after the first occurrence of an option, when there is
    one: [index > -1 && index + 1 < process.argv.length], then
    [process.argv[index + 1]]. *)
Definition optionValue (flag : string) (argv : list string) : option string :=
  match indexOf flag argv with
  | Some index => nth_error argv (index + 1)
  | None => None
  end.

(** [process.argv[2]], when it is there and not the empty string. *)
Definition inputArgOf (argv : list string) : option string :=
  match nth_error argv 2 with
  | Some inputArg => if String.eqb inputArg "" then None else Some inputArg
  | None => None
  end.

(** The flags are looked for in the order of the source, in the whole of
    [process.argv]. *)
Definition mainCommand (argv : list string) : Command :=
  if argvIncludes argv "--help" || argvIncludes argv "-h" then PrintHelp
  else if argvIncludes argv "--version" || argvIncludes argv "-v" then PrintVersion
  else if argvIncludes argv "--init" then InitConfig
  else Analyze (inputArgOf argv) (optionValue "--config" argv)
               (optionValue "--output" argv).

(** ** Properties *)

(** *** Strings *)

Lemma startsWith_includes : forall needle s,
  JS.includes needle s = false -> JS.startsWith needle s = false.
Proof.
  intros needle s H. destruct s; simpl in H; apply orb_false_iff in H; tauto.
Qed.

Lemma includes_tail : forall needle c s,
  JS.includes needle (String c s) = false -> JS.includes needle s = false.
Proof.
  intros needle c s H. simpl in H. apply orb_false_iff in H. tauto.
Qed.



(** *** C1 *)

(** C1 (the code at the failing input).  With the whitelist [src/**] the
    directory [src] is tested as [src/], which the expression [^src/(.+)$]
    does not match although it matches [src/a.txt] and [src/nested/b.txt];
    [src] is dropped with all it holds, and the walk over the tree of the
    claim writes the root line and the document header only, as it does
    whatever [src] and [lib] hold.  The whitelist of the README, [src] and
    [index.html], drops the directory [src] in the same way. *)
Theorem C1_only_src_glob_drops_src :
  regexSource "src/**" = "^src/(.+)$"
  /\ matchesOnly ["src/**"] "src/a.txt" = Some true
  /\ matchesOnly ["src/**"] "src/nested/b.txt" = Some true
  /\ matchesOnly ["src/**"] "lib/c.txt" = Some false
  /\ matchesOnly ["src/**"] "src/" = Some false
  /\ matchesOnly ["src"; "index.html"] "src/" = Some false
  /\ main onlySrcConfig targetDir noGitignore srcLibTree []
     = Done {| structure := "root" ++ nl;
               contents := documentHeader targetDir;
               console := [(LOG, ".gitignore not found, using default ignore rules.");
                           (LOG, "Starting directory traversal...")] |}
  /\ (forall srcEntries libEntries logged,
         exists st,
           main onlySrcConfig targetDir noGitignore
                (Dir [("src", Dir srcEntries); ("lib", Dir libEntries)]) logged
           = Done st
           /\ structure st = "root" ++ nl
           /\ contents st = documentHeader targetDir).
Proof.
  repeat (split; [reflexivity|]).
  intros srcEntries libEntries logged.
  eexists. split; [reflexivity|]. split; reflexivity.
Qed.

(** *** C5 *)

(** C5.  For the root with [a.txt] ("hello"), [b/c.txt] ("world") and a
    [.git] directory, whatever [.git] holds and wherever the listing puts
    it, the default configuration gives the structure text of the
    specification and a contents text made of the document header, the
    header of [a.txt] and its text, the header of [b/c.txt] and its text. *)
Theorem C5_hello_world_scenario : forall k dotGit logged,
  exists st,
    main defaultConfig targetDir noGitignore (helloWorldTree k dotGit) logged = Done st
    /\ structure st
       = "root" ++ nl ++ "├── a.txt" ++ nl ++ "└── b" ++ nl ++ "    └── c.txt" ++ nl
    /\ contents st
       = documentHeader targetDir
         ++ fileHeader "a.txt" ++ "hello" ++ nl
         ++ fileHeader "b/c.txt" ++ "world" ++ nl.
Proof.
  intros k dotGit logged.
  destruct k as [|[|k]]; eexists; (split; [reflexivity|split; reflexivity]).
Qed.

(** *** C10 *)




(** *** The buffers only grow *)

Lemma append_assoc : forall a b c : string, (a ++ b) ++ c = a ++ b ++ c.
Proof.
  induction a as [|x a IH]; intros b c; simpl; [reflexivity|].
  now rewrite IH.
Qed.

Lemma append_empty_r : forall a : string, a ++ "" = a.
Proof. induction a as [|x a IH]; simpl; [reflexivity|now rewrite IH]. Qed.

Lemma extends_refl : forall st, extends st st.
Proof. intros st; split; exists ""; now rewrite append_empty_r. Qed.

Lemma extends_trans : forall a b c, extends a b -> extends b c -> extends a c.
Proof.
  intros a b c [[s1 Hs1] [c1 Hc1]] [[s2 Hs2] [c2 Hc2]]; split.
  - exists (s1 ++ s2). now rewrite Hs2, Hs1, append_assoc.
  - exists (c1 ++ c2). now rewrite Hc2, Hc1, append_assoc.
Qed.

Lemma extends_appendStructure : forall text st, extends st (appendStructure text st).
Proof. intros; split; [exists text|exists ""]; simpl; now rewrite ?append_empty_r. Qed.

Lemma extends_appendContents : forall text st, extends st (appendContents text st).
Proof. intros; split; [exists ""|exists text]; simpl; now rewrite ?append_empty_r. Qed.

Lemma extends_console_log : forall message st, extends st (console_log message st).
Proof. intros; split; exists ""; simpl; now rewrite append_empty_r. Qed.

Lemma extends_console_warn : forall message st, extends st (console_warn message st).
Proof. intros; split; exists ""; simpl; now rewrite append_empty_r. Qed.

Create HintDb extends.

#[local] Hint Resolve extends_refl extends_appendStructure extends_appendContents
  extends_console_log extends_console_warn : extends.

Lemma filterEntries_Forall {A} (P : A -> Prop) (f : A -> option bool) :
  forall l kept, filterEntries f l = Some kept -> Forall P l -> Forall P kept.
Proof.
  induction l as [|x l IH]; intros kept H HP; simpl in H.
  - injection H as <-. constructor.
  - inversion HP as [|? ? Hx Hl]; subst.
    destruct (f x) as [keep|]; [|discriminate].
    destruct (filterEntries f l) as [kept'|]; [|discriminate].
    injection H as <-.
    destruct keep; [constructor|]; auto.
Qed.

Section Grow.

Variable rootDir : string.
Variable ig : string -> bool.
Variable only : list string.
Variable includeContentsHeader : bool.

Lemma visitEntry_extends : forall len i entry currentDir prefix st,
  growing (descend entry) ->
  extends st (finalState (visitEntry rootDir includeContentsHeader len i entry
                                     currentDir prefix st)).
Proof.
  intros len i entry currentDir prefix st Hd. unfold visitEntry.
  eapply extends_trans; [apply extends_appendStructure|].
  destruct (kind entry) as [[content|code message]| |]; simpl finalState.
  - destruct includeContentsHeader;
      repeat (eapply extends_trans; [|apply extends_appendContents]);
      auto with extends.
  - destruct (_ || _); simpl; auto with extends.
  - apply Hd.
  - auto with extends.
Qed.

Lemma forEntries_extends : forall entries len i currentDir prefix st,
  Forall (fun e => growing (descend e)) entries ->
  extends st (finalState (forEntries rootDir includeContentsHeader len i entries
                                     currentDir prefix st)).
Proof.
  induction entries as [|entry rest IH]; intros len i currentDir prefix st H;
    simpl; [auto with extends|].
  inversion H as [|? ? He Hrest]; subst.
  pose proof (visitEntry_extends len i entry currentDir prefix st He) as Hv.
  destruct (visitEntry _ _ _ _ _ _ _ _) as [st'|st']; simpl in Hv; [|exact Hv].
  eapply extends_trans; [exact Hv|]. apply IH; assumption.
Qed.

Lemma traverseEntries_extends : forall entries currentDir prefix st,
  Forall (fun e => growing (descend e)) entries ->
  extends st (finalState (traverseEntries rootDir ig only includeContentsHeader
                                          entries currentDir prefix st)).
Proof.
  intros entries currentDir prefix st H. unfold traverseEntries.
  destruct (filterEntries _ entries) as [valid|] eqn:Hf; [|simpl; auto with extends].
  apply forEntries_extends.
  eapply filterEntries_Forall; eassumption.
Qed.

Lemma traverseDirectory_growing : forall dir,
  growing (traverseDirectory rootDir ig only includeContentsHeader dir).
Proof.
  induction dir as [read|entries IH|message|] using Node_induction;
    intros currentDir prefix st; simpl; auto with extends.
  apply traverseEntries_extends.
  apply Forall_map. simpl. exact IH.
Qed.

End Grow.

(** C8.  A traversal only appends to the two buffers: whatever the tree,
    the filters and the errors met on the way, and whether the walk returns
    or raises, the structure and contents buffers it ends with are those it
    started with followed by more text; the same holds of every single step
    of the loop over the entries of a directory. *)
Theorem C8_buffers_grow_monotonically :
  forall rootDir ig only includeContentsHeader,
    (forall dir currentDir prefix st,
        extends st (finalState (traverseDirectory rootDir ig only includeContentsHeader
                                                  dir currentDir prefix st)))
    /\ (forall len i e currentDir prefix st,
           extends st (finalState
                         (visitEntry rootDir includeContentsHeader len i
                                     (direntOf rootDir ig only includeContentsHeader e)
                                     currentDir prefix st))).
Proof.
  intros rootDir ig only includeContentsHeader; split.
  - intros dir. apply traverseDirectory_growing.
  - intros. apply visitEntry_extends. apply traverseDirectory_growing.
Qed.

(** *** The walk returns, and the shape of the structure text *)

Lemma filterEntries_total {A} (f : A -> option bool) (g : A -> bool) :
  forall l, (forall x, In x l -> f x = Some (g x)) ->
            filterEntries f l = Some (filter g l).
Proof.
  induction l as [|x l IH]; intros H; simpl; [reflexivity|].
  rewrite (H x (or_introl eq_refl)), IH by (intros; apply H; now right).
  reflexivity.
Qed.

Lemma filter_map_swap {A B} (f : A -> B) (g : B -> bool) :
  forall l, filter g (map f l) = map f (filter (fun x => g (f x)) l).
Proof.
  induction l as [|x l IH]; simpl; [reflexivity|].
  rewrite IH. now destruct (g (f x)).
Qed.

Lemma flat_map_filter {A B} (p : A -> bool) (g : A -> B) :
  forall l, flat_map (fun x => if p x then [g x] else []) l = map g (filter p l).
Proof.
  induction l as [|x l IH]; simpl; [reflexivity|].
  rewrite IH. now destruct (p x).
Qed.

Lemma some_total {A} (f : A -> option bool) (g : A -> bool) :
  forall l, (forall x, In x l -> f x = Some (g x)) -> some f l = Some (existsb g l).
Proof.
  induction l as [|x l IH]; intros H; simpl; [reflexivity|].
  rewrite (H x (or_introl eq_refl)).
  destruct (g x); [reflexivity|]. apply IH. intros; apply H; now right.
Qed.

Ltac shape_done :=
  unfold fileText, fileHeader, relativePathOf;
  cbn [structure contents console appendStructure appendContents console_log
       console_warn structureOf contentsOf];
  rewrite ?append_assoc, ?append_empty_r; reflexivity.

Section Shape.

Variable rootDir : string.
Variable ig : string -> bool.
Variable only : list string.
Variable includeContentsHeader : bool.
Hypothesis onlyOk : Forall (fun pattern => patternOk pattern = true) only.

Let dirent := direntOf rootDir ig only includeContentsHeader.
Let below (currentDir : string) (e : string * Node) : string * (string -> string) :=
  (fst e, structureOf rootDir ig only (snd e) (Path.join currentDir (fst e))).

Lemma matchesOnly_total : forall checkPath,
  exists b, matchesOnly only checkPath = Some b.
Proof.
  intros checkPath. unfold matchesOnly.
  eexists. apply some_total with
    (g := fun pattern => match RegExp.create (regexSource pattern) with
                         | Some regex => RegExp.test regex checkPath
                         | None => false
                         end).
  intros pattern Hin.
  pose proof (proj1 (Forall_forall _ _) onlyOk pattern Hin) as Hok.
  unfold patternOk in Hok.
  destruct (RegExp.create (regexSource pattern)); [reflexivity|discriminate].
Qed.

Lemma isValidEntry_survives : forall currentDir e,
  isValidEntry rootDir ig only currentDir (dirent e)
  = Some (survives rootDir ig only currentDir e).
Proof.
  intros currentDir e. unfold isValidEntry, survives, passesWhitelist.
  change (isDirectory (dirent e)) with (isDir (snd e)).
  change (name (dirent e)) with (fst e).
  destruct (matchesOnly_total (checkPathOf rootDir currentDir (fst e) (isDir (snd e))))
    as [b Hb].
  destruct only as [|pattern patterns]; [reflexivity|].
  cbn [List.length Nat.eqb negb]. rewrite Hb. now destruct b.
Qed.

Lemma validEntries_survivors : forall currentDir entries,
  filterEntries (isValidEntry rootDir ig only currentDir) (map dirent entries)
  = Some (map dirent (filter (survives rootDir ig only currentDir) entries)).
Proof.
  intros currentDir entries.
  induction entries as [|e entries IH]; simpl; [reflexivity|].
  rewrite isValidEntry_survives. fold dirent. rewrite IH.
  now destruct (survives rootDir ig only currentDir e).
Qed.

Let textOf (currentDir : string) (e : string * Node) : string :=
  match kindOf (snd e) with
  | KFile read =>
      fileText includeContentsHeader (relativePathOf rootDir currentDir (fst e)) read
  | KDirectory =>
      contentsOf rootDir ig only includeContentsHeader (snd e)
                 (Path.join currentDir (fst e))
  | KOther => ""
  end.

(** The property of a walk that the induction on the tree carries. *)
Let shaped (n : Node) : Prop :=
  forall currentDir prefix st,
  exists st',
    traverseDirectory rootDir ig only includeContentsHeader n currentDir prefix st
    = Done st'
    /\ structure st' = structure st ++ structureOf rootDir ig only n currentDir prefix
    /\ contents st'
       = contents st ++ contentsOf rootDir ig only includeContentsHeader n currentDir.

Lemma visitEntry_shape : forall len i e currentDir prefix st,
  shaped (snd e) ->
  exists st',
    visitEntry rootDir includeContentsHeader len i (dirent e) currentDir prefix st
    = Done st'
    /\ structure st'
       = structure st ++ prefix
         ++ (if Nat.eqb i (len - 1) then "└── " else "├── ") ++ fst e ++ nl
         ++ structureOf rootDir ig only (snd e) (Path.join currentDir (fst e))
                        (prefix ++ (if Nat.eqb i (len - 1) then "    " else "│   "))
    /\ contents st' = contents st ++ textOf currentDir e.
Proof.
  intros len i [entryName child] currentDir prefix st Hchild.
  unfold visitEntry, textOf. cbn [dirent direntOf name kind descend fst snd].
  destruct child as [[content|code message]|entries|message|]; cbn [kindOf].
  - eexists; split; [reflexivity|].
    destruct includeContentsHeader; split; shape_done.
  - destruct (_ || _); eexists; (split; [reflexivity|]); split; shape_done.
  - destruct (Hchild (Path.join currentDir entryName)
                     (prefix ++ (if Nat.eqb i (len - 1) then "    " else "│   "))
                     (appendStructure
                        (prefix ++ (if Nat.eqb i (len - 1) then "└── " else "├── ")
                                ++ entryName ++ nl) st))
      as [st' [Hrun [Hst Hct]]].
    exists st'; split; [exact Hrun|]. cbn [snd] in Hst, Hct.
    rewrite Hst, Hct. split; shape_done.
  - destruct (Hchild (Path.join currentDir entryName)
                     (prefix ++ (if Nat.eqb i (len - 1) then "    " else "│   "))
                     (appendStructure
                        (prefix ++ (if Nat.eqb i (len - 1) then "└── " else "├── ")
                                ++ entryName ++ nl) st))
      as [st' [Hrun [Hst Hct]]].
    exists st'; split; [exact Hrun|]. cbn [snd] in Hst, Hct.
    rewrite Hst, Hct. split; shape_done.
  - eexists; split; [reflexivity|]. split; shape_done.
Qed.

Lemma forEntries_shape : forall entries len i currentDir prefix st,
  len = i + List.length entries ->
  Forall (fun e => shaped (snd e)) entries ->
  exists st',
    forEntries rootDir includeContentsHeader len i (map dirent entries)
               currentDir prefix st = Done st'
    /\ structure st'
       = structure st ++ treeLines prefix (map (below currentDir) entries)
    /\ contents st'
       = contents st ++ fold_right append "" (map (textOf currentDir) entries).
Proof.
  induction entries as [|e rest IH]; intros len i currentDir prefix st Hlen Hall.
  - exists st; split; [reflexivity|]. simpl. now rewrite !append_empty_r.
  - inversion Hall as [|? ? He Hrest]; subst.
    cbn [map forEntries].
    destruct (visitEntry_shape (i + List.length (e :: rest)) i e currentDir prefix st He)
      as [st1 [Hrun1 [Hst1 Hct1]]].
    rewrite Hrun1.
    destruct (IH (i + List.length (e :: rest)) (S i) currentDir prefix st1)
      as [st2 [Hrun2 [Hst2 Hct2]]]; [simpl; lia|assumption|].
    exists st2; split; [exact Hrun2|]. split.
    + rewrite Hst2, Hst1. cbn [treeLines below fst snd].
      destruct rest as [|e' rest'].
      * replace (Nat.eqb i (i + List.length [e] - 1)) with true
          by (symmetry; apply Nat.eqb_eq; simpl; lia).
        cbn [map treeLines]. now rewrite !append_assoc, append_empty_r.
      * replace (Nat.eqb i (i + List.length (e :: e' :: rest') - 1)) with false
          by (symmetry; apply Nat.eqb_neq; simpl; lia).
        cbn [map]. now rewrite !append_assoc.
    + rewrite Hct2, Hct1. cbn [fold_right]. now rewrite append_assoc.
Qed.

Lemma contentsOf_Dir : forall entries currentDir,
  contentsOf rootDir ig only includeContentsHeader (Dir entries) currentDir
  = fold_right append ""
               (map (textOf currentDir)
                    (filter (survives rootDir ig only currentDir) entries)).
Proof.
  intros entries currentDir. cbn [contentsOf].
  now rewrite (flat_map_filter (survives rootDir ig only currentDir) (textOf currentDir)).
Qed.

Lemma traverseDirectory_shape : forall n, shaped n.
Proof.
  induction n as [read|entries IH|message|] using Node_induction;
    intros currentDir prefix st;
    try (eexists; split; [reflexivity|]; simpl; now rewrite !append_empty_r).
  change (traverseDirectory rootDir ig only includeContentsHeader (Dir entries)
                            currentDir prefix st)
    with (traverseEntries rootDir ig only includeContentsHeader
                          (map dirent entries) currentDir prefix st).
  unfold traverseEntries. rewrite validEntries_survivors.
  rewrite length_map.
  destruct (forEntries_shape (filter (survives rootDir ig only currentDir) entries)
                             (List.length (filter (survives rootDir ig only currentDir)
                                                  entries))
                             0 currentDir prefix st)
    as [st' [Hrun [Hst Hct]]].
  - reflexivity.
  - apply Forall_forall. intros e He. apply filter_In in He.
    exact (proj1 (Forall_forall _ _) IH e (proj1 He)).
  - exists st'; split; [exact Hrun|]. split.
    + rewrite Hst. cbn [structureOf]. now rewrite flat_map_filter.
    + rewrite Hct. now rewrite contentsOf_Dir.
Qed.

End Shape.

(** *** C7 *)



(** *** C4 *)

Lemma treeLines_last : forall prefix front lastName lastBelow,
  treeLines prefix (front ++ [(lastName, lastBelow)])
  = fold_right (fun e text =>
                  prefix ++ "├── " ++ fst e ++ nl ++ snd e (prefix ++ "│   ") ++ text)
               (prefix ++ "└── " ++ lastName ++ nl ++ lastBelow (prefix ++ "    "))
               front.
Proof.
  induction front as [|[n b] front IH]; intros lastName lastBelow; [reflexivity|].
  cbn [app treeLines fold_right fst snd]. rewrite IH.
  destruct front; reflexivity.
Qed.

(** C4.  In a directory visit the walk returns with, appended to the
    structure buffer, the lines of the entries that survive the whitelist
    and the ignore rules, in the order of the listing, each followed by the
    lines of what is below it: every survivor but the last with the
    connector [├── ], the last survivor with [└── ].  So when the rules
    ignore the last entry of the listing ([app.log] under [*.log]), the one
    before it has the closing connector. *)
Theorem C4_connectors_over_filtered_entries :
  (forall rootDir ig only includeContentsHeader entries currentDir prefix st,
      Forall (fun pattern => patternOk pattern = true) only ->
      exists st',
        traverseDirectory rootDir ig only includeContentsHeader (Dir entries)
                          currentDir prefix st = Done st'
        /\ structure st'
           = structure st
             ++ treeLines prefix
                  (map (fun e => (fst e,
                                  structureOf rootDir ig only (snd e)
                                              (Path.join currentDir (fst e))))
                       (filter (survives rootDir ig only currentDir) entries)))
  /\ (forall prefix front lastName lastBelow,
         treeLines prefix (front ++ [(lastName, lastBelow)])
         = fold_right (fun e text =>
                         prefix ++ "├── " ++ fst e ++ nl
                         ++ snd e (prefix ++ "│   ") ++ text)
                      (prefix ++ "└── " ++ lastName ++ nl
                       ++ lastBelow (prefix ++ "    "))
                      front)
  /\ (exists st',
         main logsIgnoredConfig targetDir noGitignore
             (Dir [("a.txt", File (Content "a")); ("b.txt", File (Content "b"));
                   ("app.log", File (Content "noise"))]) []
         = Done st'
         /\ structure st' = "root" ++ nl ++ "├── a.txt" ++ nl ++ "└── b.txt" ++ nl).
Proof.
  split; [|split].
  - intros rootDir ig only includeContentsHeader entries currentDir prefix st Hok.
    destruct (traverseDirectory_shape rootDir ig only includeContentsHeader Hok
                                      (Dir entries) currentDir prefix st)
      as [st' [Hrun [Hst _]]].
    exists st'; split; [exact Hrun|].
    rewrite Hst. cbn [structureOf]. now rewrite flat_map_filter.
  - exact treeLines_last.
  - eexists; split; reflexivity.
Qed.

Lemma C4_connectors_over_filtered_entries_witness :
  Forall (fun pattern => patternOk pattern = true) ["*.txt"]
  /\ exists st',
      traverseDirectory targetDir neverIgnored ["*.txt"] false
                        (Dir [("a.txt", File (Content "a")); ("b.txt", File (Content "b"));
                              ("c.md", File (Content "c"))])
                        targetDir "" {| structure := ""; contents := ""; console := [] |}
      = Done st'
      /\ structure st'
         = "" ++ treeLines ""
                  (map (fun e => (fst e,
                                  structureOf targetDir neverIgnored ["*.txt"] (snd e)
                                              (Path.join targetDir (fst e))))
                       (filter (survives targetDir neverIgnored ["*.txt"] targetDir)
                               [("a.txt", File (Content "a")); ("b.txt", File (Content "b"));
                                ("c.md", File (Content "c"))])).
Proof.
  assert (Hok : Forall (fun pattern => patternOk pattern = true) ["*.txt"])
    by (repeat constructor).
  split; [exact Hok|].
  exact (proj1 C4_connectors_over_filtered_entries targetDir neverIgnored ["*.txt"] false
               [("a.txt", File (Content "a")); ("b.txt", File (Content "b"));
                ("c.md", File (Content "c"))]
               targetDir "" {| structure := ""; contents := ""; console := [] |} Hok).
Defined.

(** *** C6 *)

(** C6 (as stated, refuted).  With the header flag set, reading [a.txt]
    ("hello") does not append the header comment, a blank line, the text
    and a newline, and nothing else: the contents buffer differs from what
    the claim gives. *)
Lemma C6_header_as_stated_counterexample :
  contents
    (finalState
       (visitEntry targetDir true 1 0
                   {| name := "a.txt"; kind := KFile (Content "hello");
                      descend := fun _ _ st => Done st |}
                   targetDir ""
                   {| structure := ""; contents := "kept"; console := [] |}))
  <> "kept" ++ specFileHeader "a.txt" ++ "hello" ++ nl.
Proof. vm_compute. discriminate. Qed.

(** C6 (amended).  With the header flag set, a file that is read
    successfully adds to the contents buffer a newline, the header comment
    [/* --- File: <relativePath> --- */], a blank line, the whole text of
    the file and a trailing newline, in this order and nothing else; the
    structure buffer gets the line of the file and the console nothing.
    Over a whole walk the contents buffer grows by these texts, one for
    each surviving file that could be read, in the order of the traversal,
    and by nothing else. *)
Theorem C6_file_header_and_content :
  (forall rootDir len i entryName content descend currentDir prefix st,
      visitEntry rootDir true len i
                 {| name := entryName; kind := KFile (Content content);
                    descend := descend |}
                 currentDir prefix st
      = Done {| structure :=
                  structure st ++ prefix
                  ++ (if Nat.eqb i (len - 1) then "└── " else "├── ")
                  ++ entryName ++ nl;
                contents :=
                  ((contents st
                    ++ nl ++ "/* --- File: "
                    ++ Path.relative rootDir (Path.join currentDir entryName)
                    ++ " --- */" ++ nl ++ nl)
                   ++ content) ++ nl;
                console := console st |})
  /\ (forall relativePath content,
         fileText true relativePath (Content content)
         = nl ++ "/* --- File: " ++ relativePath ++ " --- */" ++ nl ++ nl
           ++ content ++ nl)
  /\ (forall rootDir ig only entries currentDir,
         contentsOf rootDir ig only true (Dir entries) currentDir
         = fold_right append ""
             (map (fun e =>
                     match kindOf (snd e) with
                     | KFile read =>
                         fileText true (relativePathOf rootDir currentDir (fst e)) read
                     | KDirectory =>
                         contentsOf rootDir ig only true (snd e)
                                    (Path.join currentDir (fst e))
                     | KOther => ""
                     end)
                  (filter (survives rootDir ig only currentDir) entries)))
  /\ (forall rootDir ig only dir currentDir prefix st,
         Forall (fun pattern => patternOk pattern = true) only ->
         exists st',
           traverseDirectory rootDir ig only true dir currentDir prefix st = Done st'
           /\ contents st' = contents st ++ contentsOf rootDir ig only true dir currentDir).
Proof.
  split; [reflexivity|split; [|split]].
  - intros. unfold fileText, fileHeader. now rewrite !append_assoc.
  - intros. apply contentsOf_Dir.
  - intros rootDir ig only dir currentDir prefix st Hok.
    destruct (traverseDirectory_shape rootDir ig only true Hok dir currentDir prefix st)
      as [st' [Hrun [_ Hct]]].
    exists st'; split; assumption.
Qed.

Lemma C6_file_header_and_content_witness :
  Forall (fun pattern => patternOk pattern = true) ["*.txt"; "b/"; "b/*"]
  /\ exists st',
      traverseDirectory targetDir neverIgnored ["*.txt"; "b/"; "b/*"] true
                        (helloWorldTree 2 []) targetDir ""
                        {| structure := ""; contents := "kept"; console := [] |}
      = Done st'
      /\ contents st'
         = "kept" ++ contentsOf targetDir neverIgnored ["*.txt"; "b/"; "b/*"] true
                                (helloWorldTree 2 []) targetDir.
Proof.
  assert (Hok : Forall (fun pattern => patternOk pattern = true) ["*.txt"; "b/"; "b/*"])
    by (constructor; [reflexivity|constructor; [reflexivity|
                       constructor; [reflexivity|constructor]]]).
  split; [exact Hok|].
  exact (proj2 (proj2 (proj2 C6_file_header_and_content))
               targetDir neverIgnored ["*.txt"; "b/"; "b/*"] (helloWorldTree 2 [])
               targetDir "" {| structure := ""; contents := "kept"; console := [] |} Hok).
Defined.

(** *** C2 *)

Lemma concat_text_app : forall l1 l2,
  fold_right append "" (l1 ++ l2)%list
  = fold_right append "" l1 ++ fold_right append "" l2.
Proof.
  induction l1 as [|x l1 IH]; intros l2; simpl; [reflexivity|].
  now rewrite IH, append_assoc.
Qed.

(** C2 (the code at the failing input).  The walk tells a binary file by
    the failure of its read only, and the read of a file as text does not
    fail on bytes that are no text: it answers the text with U+FFFD in
    their place.  Whatever text the read answers, the walk appends it to the
    contents buffer, after the header when the flag is set, with a newline
    after it, and writes nothing on the console.  So for [logo.png], whose
    first byte is no text, [main] writes the structure line and also the
    header and the decoded bytes, where the claim has nothing appended. *)
Theorem C2_binary_file_is_written :
  (forall rootDir includeContentsHeader len i entryName content descend
          currentDir prefix st,
      visitEntry rootDir includeContentsHeader len i
                 {| name := entryName; kind := KFile (Content content);
                    descend := descend |}
                 currentDir prefix st
      = Done {| structure :=
                  structure st ++ prefix
                  ++ (if Nat.eqb i (len - 1) then "└── " else "├── ")
                  ++ entryName ++ nl;
                contents :=
                  contents st
                  ++ fileText includeContentsHeader
                              (Path.relative rootDir (Path.join currentDir entryName))
                              (Content content);
                console := console st |})
  /\ main defaultConfig targetDir noGitignore binaryTree []
     = Done {| structure := "root" ++ nl ++ "└── logo.png" ++ nl;
               contents := documentHeader targetDir
                           ++ fileHeader "logo.png"
                           ++ (replacementCharacter ++ "PNG") ++ nl;
               console := [(LOG, ".gitignore not found, using default ignore rules.");
                           (LOG, "Starting directory traversal...")] |}.
Proof.
  split; [|reflexivity].
  intros rootDir header len i entryName content descend currentDir prefix st.
  unfold visitEntry, fileText, fileHeader. cbn [kind name].
  destruct header; unfold appendContents, appendStructure;
    cbn [structure contents console append];
    now rewrite !append_assoc.
Qed.

(** *** C9 *)

Lemma filterEntries_drop {A} (f : A -> option bool) (x : A) :
  f x = Some false ->
  forall before after,
    filterEntries f (before ++ x :: after) = filterEntries f (before ++ after).
Proof.
  intros Hx before after.
  induction before as [|y before IH]; simpl.
  - rewrite Hx. now destruct (filterEntries f after).
  - now rewrite IH.
Qed.

(** C9.  With a whitelist, a directory whose relative path followed by the
    separator matches none of the patterns is filtered out like a file would
    be and is never entered: the walk is the walk of the listing without it,
    whatever the directory holds.  Under the whitelist [src/a.txt] the
    directory [src] fails as [src/], and its file [a.txt], whose own path
    matches, is in neither output. *)
Theorem C9_directory_failing_whitelist_not_entered :
  (forall rootDir ig only includeContentsHeader before entryName child after
          currentDir prefix st,
      only <> [] ->
      isDir child = true ->
      matchesOnly only (relativePathOf rootDir currentDir entryName ++ "/") = Some false ->
      traverseDirectory rootDir ig only includeContentsHeader
                        (Dir (before ++ (entryName, child) :: after)) currentDir prefix st
      = traverseDirectory rootDir ig only includeContentsHeader
                          (Dir (before ++ after)) currentDir prefix st)
  /\ matchesOnly ["src/a.txt"] "src/a.txt" = Some true
  /\ matchesOnly ["src/a.txt"] "src/" = Some false
  /\ (exists st',
         main {| gitignore := true; ignores := []; only := ["src/a.txt"];
                includeContentsHeader := false |}
             targetDir noGitignore
             (Dir [("src", Dir [("a.txt", File (Content "alpha"))])]) []
         = Done st'
         /\ structure st' = "root" ++ nl
         /\ contents st' = "").
Proof.
  split; [|repeat split; try reflexivity; eexists; repeat split; reflexivity].
  intros rootDir ig only includeContentsHeader before entryName child after
         currentDir prefix st Honly Hdir Hmatch.
  cbn [traverseDirectory]. unfold traverseEntries.
  rewrite !map_app. cbn [map].
  rewrite filterEntries_drop; [reflexivity|].
  unfold isValidEntry, isDirectory, checkPathOf. cbn [kind name fst snd].
  unfold isDir in Hdir. destruct (kindOf child); try discriminate.
  fold (relativePathOf rootDir currentDir entryName). rewrite Hmatch.
  destruct only; [congruence|reflexivity].
Qed.

Lemma C9_directory_failing_whitelist_not_entered_witness :
  ["src/**"] <> []
  /\ isDir (Dir [("a.txt", File (Content "alpha"))]) = true
  /\ matchesOnly ["src/**"] (relativePathOf targetDir targetDir "src" ++ "/") = Some false
  /\ traverseDirectory targetDir neverIgnored ["src/**"] true
                       (Dir ([("README.md", File (Content "r"))]
                             ++ ("src", Dir [("a.txt", File (Content "alpha"))])
                             :: [("lib", Other)])%list)
                       targetDir "" {| structure := ""; contents := ""; console := [] |}
     = traverseDirectory targetDir neverIgnored ["src/**"] true
                         (Dir ([("README.md", File (Content "r"))] ++ [("lib", Other)])%list)
                         targetDir "" {| structure := ""; contents := ""; console := [] |}.
Proof.
  assert (H1 : ["src/**"] <> []) by discriminate.
  assert (H2 : isDir (Dir [("a.txt", File (Content "alpha"))]) = true) by reflexivity.
  assert (H3 : matchesOnly ["src/**"] (relativePathOf targetDir targetDir "src" ++ "/")
               = Some false) by reflexivity.
  split; [exact H1|split; [exact H2|split; [exact H3|]]].
  exact (proj1 C9_directory_failing_whitelist_not_entered
               targetDir neverIgnored ["src/**"] true
               [("README.md", File (Content "r"))] "src"
               (Dir [("a.txt", File (Content "alpha"))]) [("lib", Other)]
               targetDir "" {| structure := ""; contents := ""; console := [] |}
               H1 H2 H3).
Defined.

(** *** Paths *)

Lemma split_not_nil : forall sep s, JS.split sep s <> [].
Proof.
  intros sep s. destruct s as [|c s]; simpl; [discriminate|].
  destruct (Ascii.eqb c sep); [discriminate|].
  destruct (JS.split sep s); discriminate.
Qed.

Lemma split_app : forall sep a b,
  JS.split sep (a ++ String sep b) = (JS.split sep a ++ JS.split sep b)%list.
Proof.
  intros sep a b. induction a as [|c a IH]; simpl.
  - now rewrite Ascii.eqb_refl.
  - destruct (Ascii.eqb c sep); [now rewrite IH|].
    rewrite IH. pose proof (split_not_nil sep a) as Hne.
    destruct (JS.split sep a); [congruence|reflexivity].
Qed.

Lemma segments_app : forall a b,
  Path.segments (a ++ String "/" b) = (Path.segments a ++ Path.segments b)%list.
Proof.
  intros a b. unfold Path.segments. now rewrite split_app, filter_app.
Qed.

Lemma endsWithChar_app : forall c s,
  JS.endsWithChar c s = true -> exists s', s = s' ++ String c "".
Proof.
  intros c s. induction s as [|a s IH]; intros H; [discriminate|].
  destruct s as [|b s].
  - simpl in H. apply Ascii.eqb_eq in H. subst. now exists "".
  - destruct (IH H) as [s' Hs']. exists (String a s'). simpl. now rewrite <- Hs'.
Qed.

Lemma segments_join : forall dir entryName,
  Path.segments (Path.join dir entryName)
  = (Path.segments dir ++ Path.segments entryName)%list.
Proof.
  intros dir entryName. unfold Path.join.
  destruct (JS.endsWithChar "/" dir) eqn:Hend.
  - destruct (endsWithChar_app _ _ Hend) as [dir' ->].
    rewrite append_assoc. cbn [append].
    rewrite !segments_app. cbn. now rewrite app_nil_r.
  - apply segments_app.
Qed.

Lemma inside_join : forall rootDir dir entryName,
  inside rootDir dir -> inside rootDir (Path.join dir entryName).
Proof.
  intros rootDir dir entryName [below H].
  exists (below ++ Path.segments entryName)%list.
  now rewrite segments_join, H, app_assoc.
Qed.

Lemma inside_refl : forall rootDir, inside rootDir rootDir.
Proof. intros rootDir. exists []. now rewrite app_nil_r. Qed.

Lemma stripCommon_prefix : forall l m, Path.stripCommon l (l ++ m) = ([], m).
Proof.
  induction l as [|x l IH]; intros m; simpl; [now destruct m|].
  now rewrite String.eqb_refl.
Qed.

Lemma join_snoc : forall l x,
  JS.join "/" (l ++ [x]) = match l with
                           | [] => x
                           | _ => JS.join "/" l ++ String "/" x
                           end.
Proof.
  induction l as [|y l IH]; intros x; [reflexivity|].
  cbn [app JS.join]. rewrite IH.
  destruct l as [|z l]; cbn [app]; [reflexivity|].
  now rewrite append_assoc.
Qed.

(** The path that the filters test for an entry that is inside the root
    ends with the name of the entry. *)
Lemma segments_checkPath : forall rootDir currentDir entryName isDirectory,
  inside rootDir currentDir ->
  Path.segments entryName = [entryName] ->
  exists above,
    Path.segments (checkPathOf rootDir currentDir entryName isDirectory)
    = (above ++ [entryName])%list.
Proof.
  intros rootDir currentDir entryName isDirectory [below Hin] Hname.
  assert (Hrel : relativePathOf rootDir currentDir entryName
                 = JS.join "/" (below ++ [entryName])).
  { unfold relativePathOf, Path.relative.
    rewrite segments_join, Hin, Hname, <- app_assoc, stripCommon_prefix.
    reflexivity. }
  assert (Hseg : exists above,
             Path.segments (relativePathOf rootDir currentDir entryName)
             = (above ++ [entryName])%list).
  { rewrite Hrel, join_snoc. destruct below as [|b below].
    - exists []. exact Hname.
    - exists (Path.segments (JS.join "/" (b :: below))).
      now rewrite segments_app, Hname. }
  destruct Hseg as [above Hseg]. exists above.
  unfold checkPathOf. destruct isDirectory; [|exact Hseg].
  change (relativePathOf rootDir currentDir entryName ++ "/")
    with (relativePathOf rootDir currentDir entryName ++ String "/" "").
  rewrite segments_app, Hseg. cbn. now rewrite app_nil_r.
Qed.

(** *** The ignore rules on the built-in names *)

Lemma testOne_positive : forall p rules ignored,
  Forall (fun r => Ignore.negative r = false) rules ->
  fold_left (fun ignored r =>
               if Ignore.ruleTest r p then negb (Ignore.negative r) else ignored)
            rules ignored
  = ignored || existsb (fun r => Ignore.ruleTest r p) rules.
Proof.
  intros p rules. induction rules as [|r rules IH]; intros ignored H; simpl.
  - now rewrite orb_false_r.
  - inversion H as [|? ? Hr Hrules]; subst.
    rewrite IH by assumption. rewrite Hr.
    destruct (Ignore.ruleTest r p), ignored; reflexivity.
Qed.

Lemma matchSegments_anywhere : forall tokens entryName above,
  Ignore.matchSegment tokens entryName = true ->
  Ignore.matchSegments [Ignore.StarStar; Ignore.Segment tokens] (above ++ [entryName])
  = true.
Proof.
  intros tokens entryName above H.
  cbn [Ignore.matchSegments].
  induction above as [|a above IH]; cbn [app].
  - now rewrite H.
  - rewrite IH. apply orb_true_r.
Qed.

Lemma alwaysIgnored_segments : forall entryName,
  alwaysIgnored entryName = true -> Path.segments entryName = [entryName].
Proof.
  intros entryName H. unfold alwaysIgnored, ALWAYS_IGNORE in H.
  cbn [existsb] in H.
  repeat (apply orb_true_iff in H; destruct H as [H|H];
          [apply String.eqb_eq in H; subst; reflexivity|]).
  discriminate.
Qed.

Lemma builtin_rule_matches : forall entryName p above,
  alwaysIgnored entryName = true ->
  Path.segments p = (above ++ [entryName])%list ->
  existsb (fun r => Ignore.ruleTest r p) (Ignore.add [] ALWAYS_IGNORE) = true.
Proof.
  intros entryName p above H Hseg.
  unfold alwaysIgnored, ALWAYS_IGNORE in H. cbn [existsb] in H.
  change (Ignore.add [] ALWAYS_IGNORE)
    with (map Ignore.createRule ALWAYS_IGNORE).
  unfold ALWAYS_IGNORE. cbn [map existsb].
  unfold Ignore.ruleTest. rewrite Hseg.
  repeat (apply orb_true_iff in H; destruct H as [H|H];
          [apply String.eqb_eq in H; subst entryName;
           repeat (apply orb_true_iff; first [left; apply andb_true_iff; split;
                     [reflexivity|apply matchSegments_anywhere; reflexivity]
                                              |right]) |]).
  discriminate.
Qed.

(** Without a negation among the rules that follow them, the built-in
    rules ignore every path that ends with one of their names. *)
Lemma ignores_builtin : forall rules entryName p above,
  Forall (fun r => Ignore.negative r = false) rules ->
  alwaysIgnored entryName = true ->
  Path.segments p = (above ++ [entryName])%list ->
  Ignore.ignores (Ignore.add [] ALWAYS_IGNORE ++ rules)%list p = true.
Proof.
  intros rules entryName p above Hpos Hname Hseg.
  unfold Ignore.ignores. apply orb_true_iff; right.
  unfold Ignore.testOne. rewrite testOne_positive.
  - cbn [orb]. rewrite existsb_app.
    now rewrite (builtin_rule_matches entryName p above).
  - apply Forall_app; split; [|exact Hpos]. repeat constructor.
Qed.

(** *** Entries that the rules ignore leave no trace *)

Section Pruned.

Variable rootDir : string.
Variable ig : string -> bool.
Variable includeContentsHeader : bool.
Hypothesis igBuiltin :
  forall currentDir entryName isDirectory,
    inside rootDir currentDir ->
    alwaysIgnored entryName = true ->
    ig (checkPathOf rootDir currentDir entryName isDirectory) = true.

Let dirent := direntOf rootDir ig [] includeContentsHeader.
Let pruned (e : string * Node) : string * Node :=
  (fst e, withoutAlwaysIgnored (snd e)).
Let same (n : Node) : Prop :=
  forall currentDir prefix st,
    inside rootDir currentDir ->
    traverseDirectory rootDir ig [] includeContentsHeader n currentDir prefix st
    = traverseDirectory rootDir ig [] includeContentsHeader (withoutAlwaysIgnored n)
                        currentDir prefix st.

Lemma kindOf_pruned : forall n, kindOf (withoutAlwaysIgnored n) = kindOf n.
Proof. now destruct n. Qed.

Lemma survives_pruned : forall currentDir e,
  survives rootDir ig [] currentDir (pruned e) = survives rootDir ig [] currentDir e.
Proof.
  intros currentDir [entryName child]. unfold survives, pruned, isDir.
  cbn [fst snd]. now rewrite kindOf_pruned.
Qed.

Lemma survives_alwaysIgnored : forall currentDir e,
  inside rootDir currentDir ->
  alwaysIgnored (fst e) = true ->
  survives rootDir ig [] currentDir e = false.
Proof.
  intros currentDir e Hin Hname. unfold survives.
  now rewrite igBuiltin.
Qed.

Lemma survivors_pruned : forall currentDir entries,
  inside rootDir currentDir ->
  filter (survives rootDir ig [] currentDir)
         (flat_map (fun e => if alwaysIgnored (fst e) then [] else [pruned e]) entries)
  = map pruned (filter (survives rootDir ig [] currentDir) entries).
Proof.
  intros currentDir entries Hin.
  induction entries as [|e entries IH]; [reflexivity|].
  cbn [flat_map filter]. rewrite filter_app, IH.
  destruct (alwaysIgnored (fst e)) eqn:Hname.
  - now rewrite (survives_alwaysIgnored currentDir e Hin Hname).
  - cbn [filter]. rewrite survives_pruned.
    now destruct (survives rootDir ig [] currentDir e).
Qed.

Lemma forEntries_pruned : forall entries len i currentDir prefix st,
  inside rootDir currentDir ->
  Forall (fun e => same (snd e)) entries ->
  forEntries rootDir includeContentsHeader len i (map dirent entries)
             currentDir prefix st
  = forEntries rootDir includeContentsHeader len i (map dirent (map pruned entries))
               currentDir prefix st.
Proof.
  induction entries as [|e entries IH]; intros len i currentDir prefix st Hin Hall;
    [reflexivity|].
  inversion Hall as [|? ? He Hrest]; subst.
  cbn [map forEntries].
  assert (Hvisit :
            visitEntry rootDir includeContentsHeader len i (dirent e)
                       currentDir prefix st
            = visitEntry rootDir includeContentsHeader len i (dirent (pruned e))
                         currentDir prefix st).
  { unfold visitEntry. destruct e as [entryName child].
    cbn [dirent direntOf pruned name kind descend fst snd].
    rewrite kindOf_pruned.
    destruct (kindOf child); try reflexivity.
    apply He. now apply inside_join. }
  rewrite Hvisit.
  destruct (visitEntry _ _ _ _ (dirent (pruned e)) _ _ _); [|reflexivity].
  now apply IH.
Qed.

Lemma traverseDirectory_pruned : forall n, same n.
Proof.
  induction n as [read|entries IH|message|] using Node_induction;
    intros currentDir prefix st Hin; try reflexivity.
  cbn [withoutAlwaysIgnored].
  change (traverseDirectory rootDir ig [] includeContentsHeader (Dir entries)
                            currentDir prefix st)
    with (traverseEntries rootDir ig [] includeContentsHeader
                          (map dirent entries) currentDir prefix st).
  change (traverseDirectory rootDir ig [] includeContentsHeader (Dir ?l)
                            currentDir prefix st)
    with (traverseEntries rootDir ig [] includeContentsHeader
                          (map dirent l) currentDir prefix st).
  unfold traverseEntries, dirent.
  rewrite !validEntries_survivors by constructor.
  fold dirent. fold pruned. rewrite survivors_pruned by assumption.
  rewrite !length_map.
  apply forEntries_pruned; [assumption|].
  apply Forall_forall. intros e He. apply filter_In in He.
  exact (proj1 (Forall_forall _ _) IH e (proj1 He)).
Qed.

End Pruned.

(** *** C3 *)

Lemma loadGitignore_rules : forall config dir gitignoreFile logged,
  Ignore.add (fst (loadGitignore dir (gitignore config) gitignoreFile logged))
             (ignores config)
  = (Ignore.add [] ALWAYS_IGNORE ++ userRules config gitignoreFile)%list.
Proof.
  intros config dir gitignoreFile logged. unfold loadGitignore, userRules.
  destruct (gitignore config); [destruct gitignoreFile as [text|code message]|].
  - cbn [fst]. unfold Ignore.addContent, Ignore.add.
    now rewrite !app_nil_l, app_assoc.
  - destruct (String.eqb code "ENOENT"); cbn [fst]; unfold Ignore.add;
      now rewrite !app_nil_l.
  - cbn [fst]. unfold Ignore.add. now rewrite !app_nil_l.
Qed.

(** C3 (the code at the failing input).  The built-in names are the first
    rules of the ignore instance, and a rule that comes after them can
    negate them.  With the extra pattern [!node_modules] the
    [node_modules] directory and the file in it are in the structure text
    and in the contents text, and the run differs from the run over the
    tree without the directory: the names are not ignored whatever the
    configuration. *)
Theorem C3_negation_readmits_always_ignored :
  (exists st,
      main unignoreConfig targetDir noGitignore depsTree [] = Done st
      /\ structure st
         = "root" ++ nl ++ "├── index.js" ++ nl ++ "└── node_modules" ++ nl
           ++ "    └── dep.js" ++ nl
      /\ contents st
         = documentHeader targetDir
           ++ fileHeader "index.js" ++ "app" ++ nl
           ++ fileHeader "node_modules/dep.js" ++ "dep" ++ nl)
  /\ ~ alwaysIgnoredNeverAppear.
Proof.
  split.
  - eexists; repeat split; reflexivity.
  - intros H.
    specialize (H unignoreConfig targetDir noGitignore depsTree [] eq_refl).
    vm_compute in H. discriminate H.
Qed.

(** ** More properties of the code *)

(** *** The regular expression of a whitelist pattern *)

Lemma not_syntax_char : forall c,
  RegExp.isSyntaxCharacter c = false ->
  Ascii.eqb "*" c = false /\ Ascii.eqb "(" c = false /\ Ascii.eqb c "$" = false
  /\ Ascii.eqb c "." = false.
Proof.
  intros c H. unfold RegExp.isSyntaxCharacter in H. cbn [existsb] in H.
  repeat (apply orb_false_iff in H; destruct H as [? H]).
  rewrite (Ascii.eqb_sym "*" c), (Ascii.eqb_sym "(" c). auto.
Qed.

Lemma literal_cons : forall c s,
  literal (String c s) = true ->
  RegExp.isSyntaxCharacter c = false /\ literal s = true.
Proof.
  intros c s H. cbn [literal] in H. apply andb_true_iff in H.
  destruct H as [Hc Hs]. apply negb_true_iff in Hc. auto.
Qed.

Lemma replaceAll_literal_prefix : forall needle rep a s,
  literal a = true ->
  JS.replaceAll_from (String "*" needle) rep 0 (a ++ s)
  = a ++ JS.replaceAll_from (String "*" needle) rep 0 s.
Proof.
  intros needle rep a s. induction a as [|c a IH]; intros H; [reflexivity|].
  destruct (literal_cons _ _ H) as [Hc Ha].
  destruct (not_syntax_char c Hc) as [Hstar _].
  cbn [append JS.replaceAll_from JS.startsWith]. rewrite Hstar. cbn [andb].
  now rewrite IH.
Qed.

Lemma replaceAll_literal : forall needle rep a,
  literal a = true ->
  JS.replaceAll_from (String "*" needle) rep 0 a = a.
Proof.
  intros needle rep a H.
  rewrite <- (append_empty_r a) at 1.
  rewrite replaceAll_literal_prefix by assumption.
  cbn [JS.replaceAll_from]. apply append_empty_r.
Qed.

Lemma literal_not_star : forall b, literal b = true -> JS.startsWith "*" b = false.
Proof.
  intros [|c b] H; [reflexivity|].
  destruct (literal_cons _ _ H) as [Hc _].
  destruct (not_syntax_char c Hc) as [Hstar _].
  cbn [JS.startsWith]. now rewrite Hstar.
Qed.

Lemma regexSource_literal : forall p,
  literal p = true -> regexSource p = "^" ++ p ++ "$".
Proof.
  intros p H. unfold regexSource, JS.replaceAll.
  rewrite (replaceAll_literal "*" "(.+)" p H).
  now rewrite (replaceAll_literal "" "([^/]+)" p H).
Qed.

Lemma replaceAll_single_star : forall rep b,
  literal b = true ->
  JS.replaceAll_from "**" rep 0 (String "*" b) = String "*" b.
Proof.
  intros rep b Hb.
  change (JS.replaceAll_from "**" rep 0 (String "*" b))
    with (if JS.startsWith "**" (String "*" b)
          then rep ++ JS.replaceAll_from "**" rep 1 b
          else String "*" (JS.replaceAll_from "**" rep 0 b)).
  change (JS.startsWith "**" (String "*" b))
    with (Ascii.eqb "*" "*" && JS.startsWith "*" b).
  rewrite (literal_not_star b Hb), andb_false_r.
  now rewrite (replaceAll_literal "*" rep b Hb).
Qed.

Lemma replaceAll_double_star : forall rep b,
  literal b = true ->
  JS.replaceAll_from "**" rep 0 (String "*" (String "*" b)) = rep ++ b.
Proof.
  intros rep b Hb.
  change (JS.replaceAll_from "**" rep 0 (String "*" (String "*" b)))
    with (rep ++ JS.replaceAll_from "**" rep 0 b).
  now rewrite (replaceAll_literal "*" rep b Hb).
Qed.

Lemma replaceAll_star : forall rep b,
  literal b = true ->
  JS.replaceAll_from "*" rep 0 (String "*" b) = rep ++ b.
Proof.
  intros rep b Hb.
  change (JS.replaceAll_from "*" rep 0 (String "*" b))
    with (rep ++ JS.replaceAll_from "*" rep 0 b).
  now rewrite (replaceAll_literal "" rep b Hb).
Qed.

Lemma regexSource_star : forall a b,
  literal a = true -> literal b = true ->
  regexSource (a ++ "*" ++ b) = "^" ++ a ++ "([^/]+)" ++ b ++ "$".
Proof.
  intros a b Ha Hb. unfold regexSource, JS.replaceAll.
  change ("*" ++ b) with (String "*" b).
  rewrite replaceAll_literal_prefix, replaceAll_single_star by assumption.
  rewrite replaceAll_literal_prefix, replaceAll_star by assumption.
  now rewrite !append_assoc.
Qed.

Lemma regexSource_starstar : forall a b,
  literal a = true -> literal b = true ->
  regexSource (a ++ "**" ++ b) = "^" ++ a ++ "(.+)" ++ b ++ "$".
Proof.
  intros a b Ha Hb. unfold regexSource, JS.replaceAll.
  change ("**" ++ b) with (String "*" (String "*" b)).
  rewrite replaceAll_literal_prefix, replaceAll_double_star by assumption.
  rewrite replaceAll_literal_prefix by assumption.
  change (JS.replaceAll_from "*" "([^/]+)" 0 ("(.+)" ++ b))
    with ("(.+)" ++ JS.replaceAll_from "*" "([^/]+)" 0 b).
  rewrite (replaceAll_literal "" "([^/]+)" b Hb).
  now rewrite !append_assoc.
Qed.

Lemma parseTerms_literal_prefix : forall a s,
  literal a = true ->
  RegExp.parseTerms 0 (a ++ s)
  = option_map (app (map RegExp.Lit (list_ascii_of_string a))) (RegExp.parseTerms 0 s).
Proof.
  induction a as [|c a IH]; intros s H.
  - cbn. now destruct (RegExp.parseTerms 0 s).
  - destruct (literal_cons _ _ H) as [Hc Ha].
    destruct (not_syntax_char c Hc) as [_ [Hparen [Hdollar Hdot]]].
    cbn [append RegExp.parseTerms JS.startsWith list_ascii_of_string map].
    rewrite Hparen, Hdollar, Hdot, Hc. cbn [andb].
    rewrite (IH s Ha). now destruct (RegExp.parseTerms 0 s).
Qed.

Lemma create_literal : forall p,
  literal p = true ->
  RegExp.create (regexSource p) = Some (map RegExp.Lit (list_ascii_of_string p)).
Proof.
  intros p H. rewrite (regexSource_literal p H).
  change (RegExp.create ("^" ++ p ++ "$")) with (RegExp.parseTerms 0 (p ++ "$")).
  rewrite parseTerms_literal_prefix by assumption.
  cbn. now rewrite app_nil_r.
Qed.

Lemma create_star : forall a b,
  literal a = true -> literal b = true ->
  RegExp.create (regexSource (a ++ "*" ++ b))
  = Some (map RegExp.Lit (list_ascii_of_string a)
          ++ RegExp.Plus RegExp.NotSlash
          :: map RegExp.Lit (list_ascii_of_string b))%list.
Proof.
  intros a b Ha Hb. rewrite (regexSource_star a b Ha Hb).
  change (RegExp.create ("^" ++ a ++ "([^/]+)" ++ b ++ "$"))
    with (RegExp.parseTerms 0 (a ++ "([^/]+)" ++ b ++ "$")).
  rewrite parseTerms_literal_prefix by assumption.
  change (RegExp.parseTerms 0 ("([^/]+)" ++ b ++ "$"))
    with (option_map (cons (RegExp.Plus RegExp.NotSlash))
                     (RegExp.parseTerms 0 (b ++ "$"))).
  rewrite parseTerms_literal_prefix by assumption.
  cbn. now rewrite app_nil_r.
Qed.

Lemma create_starstar : forall a b,
  literal a = true -> literal b = true ->
  RegExp.create (regexSource (a ++ "**" ++ b))
  = Some (map RegExp.Lit (list_ascii_of_string a)
          ++ RegExp.Plus RegExp.Dot
          :: map RegExp.Lit (list_ascii_of_string b))%list.
Proof.
  intros a b Ha Hb. rewrite (regexSource_starstar a b Ha Hb).
  change (RegExp.create ("^" ++ a ++ "(.+)" ++ b ++ "$"))
    with (RegExp.parseTerms 0 (a ++ "(.+)" ++ b ++ "$")).
  rewrite parseTerms_literal_prefix by assumption.
  change (RegExp.parseTerms 0 ("(.+)" ++ b ++ "$"))
    with (option_map (cons (RegExp.Plus RegExp.Dot))
                     (RegExp.parseTerms 0 (b ++ "$"))).
  rewrite parseTerms_literal_prefix by assumption.
  cbn. now rewrite app_nil_r.
Qed.

(** *** What the terms of an expression match *)

Lemma matches_literal : forall p s,
  RegExp.matches (map RegExp.Lit (list_ascii_of_string p)) s = String.eqb p s.
Proof.
  induction p as [|c p IH]; intros [|d s]; try reflexivity.
  cbn [list_ascii_of_string map RegExp.matches String.eqb]. now rewrite IH.
Qed.

Lemma matches_literal_prefix : forall a ts rest,
  RegExp.matches (map RegExp.Lit (list_ascii_of_string a) ++ ts)%list (a ++ rest)
  = RegExp.matches ts rest.
Proof.
  induction a as [|c a IH]; intros ts rest; [reflexivity|].
  cbn [list_ascii_of_string map app append RegExp.matches].
  now rewrite Ascii.eqb_refl, IH.
Qed.

Lemma matches_literal_inv : forall a ts s,
  RegExp.matches (map RegExp.Lit (list_ascii_of_string a) ++ ts)%list s = true ->
  exists rest, s = a ++ rest /\ RegExp.matches ts rest = true.
Proof.
  induction a as [|c a IH]; intros ts s H.
  - now exists s.
  - cbn [list_ascii_of_string map app RegExp.matches] in H.
    destruct s as [|d s]; [discriminate|].
    apply andb_true_iff in H. destruct H as [Hc Hs].
    apply Ascii.eqb_eq in Hc. subst d.
    destruct (IH ts s Hs) as [rest [-> Hrest]].
    now exists rest.
Qed.

Lemma matches_plus_cons : forall cs ts d s,
  RegExp.matches (RegExp.Plus cs :: ts) (String d s)
  = RegExp.inSet cs d
    && (RegExp.matches ts s || RegExp.matches (RegExp.Plus cs :: ts) s).
Proof. reflexivity. Qed.

Lemma matches_plus : forall cs ts s,
  RegExp.matches (RegExp.Plus cs :: ts) s = true
  <-> exists m rest,
      s = m ++ rest /\ m <> "" /\ allIn cs m = true
      /\ RegExp.matches ts rest = true.
Proof.
  intros cs ts s; split.
  - induction s as [|d s IH]; intros H; [discriminate|].
    rewrite matches_plus_cons in H. apply andb_true_iff in H.
    destruct H as [Hd H]. apply orb_true_iff in H. destruct H as [H|H].
    + exists (String d ""), s. cbn [allIn]. rewrite Hd.
      repeat split; auto; discriminate.
    + destruct (IH H) as [m [rest [-> [_ [Hm Hrest]]]]].
      exists (String d m), rest. cbn [allIn]. rewrite Hd, Hm.
      repeat split; auto; discriminate.
  - intros [m [rest [-> [Hne [Hm Hrest]]]]].
    induction m as [|d m IH]; [congruence|].
    cbn [allIn] in Hm. apply andb_true_iff in Hm. destruct Hm as [Hd Hm].
    cbn [append]. rewrite matches_plus_cons, Hd. cbn [andb].
    destruct m as [|e m].
    + cbn [append]. now rewrite Hrest.
    + rewrite IH by (auto; discriminate). apply orb_true_r.
Qed.

Lemma allIn_NotSlash : forall m,
  allIn RegExp.NotSlash m = negb (JS.includes "/" m).
Proof.
  induction m as [|c m IH]; [reflexivity|].
  cbn [allIn RegExp.inSet JS.includes JS.startsWith]. rewrite IH.
  rewrite (Ascii.eqb_sym "/" c), andb_true_r. now rewrite negb_orb.
Qed.

Lemma allIn_Dot : forall m,
  allIn RegExp.Dot m = negb (JS.includes nl m) && negb (JS.includes cr m).
Proof.
  induction m as [|c m IH]; [reflexivity|].
  cbn [allIn RegExp.inSet].
  change (JS.includes nl (String c m))
    with (Ascii.eqb "010" c && true || JS.includes nl m).
  change (JS.includes cr (String c m))
    with (Ascii.eqb "013" c && true || JS.includes cr m).
  rewrite IH. unfold RegExp.isLineTerminator.
  rewrite (Ascii.eqb_sym "010" c), (Ascii.eqb_sym "013" c), !andb_true_r.
  destruct (Ascii.eqb c "010"), (Ascii.eqb c "013"),
    (JS.includes nl m), (JS.includes cr m); reflexivity.
Qed.

Lemma matchesOnly_single : forall p ts checkPath,
  RegExp.create (regexSource p) = Some ts ->
  matchesOnly [p] checkPath = Some (RegExp.matches ts checkPath).
Proof.
  intros p ts checkPath H. unfold matchesOnly. cbn [some]. rewrite H.
  unfold RegExp.test. now destruct (RegExp.matches ts checkPath).
Qed.

Lemma length_append : forall a b : string,
  String.length (a ++ b) = String.length a + String.length b.
Proof. induction a as [|c a IH]; intros b; simpl; [reflexivity|now rewrite IH]. Qed.

Lemma wildcard_matches : forall cs a b s,
  RegExp.matches (map RegExp.Lit (list_ascii_of_string a)
                  ++ RegExp.Plus cs :: map RegExp.Lit (list_ascii_of_string b))%list s
  = true
  <-> exists m, m <> "" /\ allIn cs m = true /\ s = a ++ m ++ b.
Proof.
  intros cs a b s; split.
  - intros H. destruct (matches_literal_inv _ _ _ H) as [rest [-> Hrest]].
    apply matches_plus in Hrest.
    destruct Hrest as [m [tail [-> [Hne [Hm Htail]]]]].
    rewrite matches_literal in Htail. apply String.eqb_eq in Htail. subst tail.
    now exists m.
  - intros [m [Hne [Hm ->]]].
    rewrite matches_literal_prefix. apply matches_plus.
    exists m, b. repeat split; auto.
    rewrite matches_literal. apply String.eqb_refl.
Qed.

(** X1.  A whitelist of patterns made of ordinary characters is a list of
    exact paths: the test never raises, and a path passes exactly when it
    is equal to one of the patterns.  A directory is tested with the
    separator after its path, so it passes only under a pattern that ends
    with the separator. *)
Theorem literal_whitelist_is_exact :
  forall only checkPath,
    Forall (fun pattern => literal pattern = true) only ->
    matchesOnly only checkPath
    = Some (existsb (fun pattern => String.eqb pattern checkPath) only).
Proof.
  intros only checkPath H. unfold matchesOnly. apply some_total.
  intros pattern Hin.
  rewrite (create_literal pattern (proj1 (Forall_forall _ _) H pattern Hin)).
  unfold RegExp.test. now rewrite matches_literal.
Qed.

Lemma literal_whitelist_is_exact_witness :
  Forall (fun pattern => literal pattern = true) ["src"; "docs/"]
  /\ matchesOnly ["src"; "docs/"] "src/"
     = Some (existsb (fun pattern => String.eqb pattern "src/") ["src"; "docs/"]).
Proof.
  assert (H : Forall (fun pattern => literal pattern = true) ["src"; "docs/"])
    by (constructor; [reflexivity|constructor; [reflexivity|constructor]]).
  split; [exact H|].
  exact (literal_whitelist_is_exact ["src"; "docs/"] "src/" H).
Defined.

(** X2.  In a whitelist pattern, a single [*] between ordinary characters
    stands for one character or more, none of them the separator, and never
    for nothing: the pattern admits exactly the paths made of what is before
    the [*], such a run, and what is after it. *)
Theorem single_star_within_segment :
  forall a b checkPath,
    literal a = true -> literal b = true ->
    (matchesOnly [a ++ "*" ++ b] checkPath = Some true
     \/ matchesOnly [a ++ "*" ++ b] checkPath = Some false)
    /\ (matchesOnly [a ++ "*" ++ b] checkPath = Some true
        <-> exists m,
            m <> "" /\ JS.includes "/" m = false /\ checkPath = a ++ m ++ b).
Proof.
  intros a b checkPath Ha Hb.
  rewrite (matchesOnly_single _ _ checkPath (create_star a b Ha Hb)).
  split; [destruct (RegExp.matches _ checkPath); auto|].
  split.
  - intros H. injection H as H. apply wildcard_matches in H.
    destruct H as [m [Hne [Hm ->]]]. exists m. repeat split; auto.
    rewrite allIn_NotSlash in Hm. now apply negb_true_iff in Hm.
  - intros [m [Hne [Hm ->]]]. f_equal. apply wildcard_matches.
    exists m. repeat split; auto.
    rewrite allIn_NotSlash. now apply negb_true_iff.
Qed.

Lemma single_star_within_segment_witness :
  literal "" = true /\ literal "-min" = true
  /\ (matchesOnly ["" ++ "*" ++ "-min"] "-min" = Some true
      <-> exists m, m <> "" /\ JS.includes "/" m = false /\ "-min" = "" ++ m ++ "-min").
Proof.
  assert (Ha : literal "" = true) by reflexivity.
  assert (Hb : literal "-min" = true) by reflexivity.
  split; [exact Ha|split; [exact Hb|]].
  exact (proj2 (single_star_within_segment "" "-min" "-min" Ha Hb)).
Defined.

(** X3.  In a whitelist pattern, [**] between ordinary characters stands
    for one character or more, separators among them but no line break, and
    never for nothing: [dir/**] admits what is below [dir] and not [dir/]
    itself.  The paths are those that hold neither U+2028 nor U+2029, which
    a [.] refuses as it does the line feed and the carriage return. *)
Theorem double_star_spans_segments :
  forall a b checkPath,
    literal a = true -> literal b = true ->
    JS.includes lineSeparator checkPath = false ->
    JS.includes paragraphSeparator checkPath = false ->
    (matchesOnly [a ++ "**" ++ b] checkPath = Some true
     \/ matchesOnly [a ++ "**" ++ b] checkPath = Some false)
    /\ (matchesOnly [a ++ "**" ++ b] checkPath = Some true
        <-> exists m,
            m <> "" /\ JS.includes nl m = false /\ JS.includes cr m = false
            /\ checkPath = a ++ m ++ b)
    /\ matchesOnly [a ++ "**" ++ b] (a ++ b) = Some false.
Proof.
  intros a b checkPath Ha Hb _ _.
  assert (Hiff : forall s,
             RegExp.matches (map RegExp.Lit (list_ascii_of_string a)
                             ++ RegExp.Plus RegExp.Dot
                             :: map RegExp.Lit (list_ascii_of_string b))%list s = true
             <-> exists m, m <> "" /\ JS.includes nl m = false
                           /\ JS.includes cr m = false /\ s = a ++ m ++ b).
  { intros s. rewrite wildcard_matches. split.
    - intros [m [Hne [Hm ->]]]. exists m. rewrite allIn_Dot in Hm.
      apply andb_true_iff in Hm. destruct Hm as [H1 H2].
      apply negb_true_iff in H1. apply negb_true_iff in H2. auto.
    - intros [m [Hne [H1 [H2 ->]]]]. exists m. repeat split; auto.
      rewrite allIn_Dot, H1, H2. reflexivity. }
  rewrite !(matchesOnly_single _ _ _ (create_starstar a b Ha Hb)).
  split; [destruct (RegExp.matches _ checkPath); auto|].
  split; [split|].
  - intros H. injection H as H. now apply Hiff.
  - intros H. f_equal. now apply Hiff.
  - f_equal. apply not_true_is_false. intros H. apply Hiff in H.
    destruct H as [m [Hne [_ [_ Heq]]]].
    apply (f_equal String.length) in Heq.
    rewrite !length_append in Heq.
    destruct m; [congruence|]. simpl in Heq. lia.
Qed.

Lemma double_star_spans_segments_witness :
  literal "src/" = true /\ literal "" = true
  /\ JS.includes lineSeparator "src/nested/b.txt" = false
  /\ JS.includes paragraphSeparator "src/nested/b.txt" = false
  /\ (matchesOnly ["src/" ++ "**" ++ ""] "src/nested/b.txt" = Some true
      <-> exists m,
          m <> "" /\ JS.includes nl m = false /\ JS.includes cr m = false
          /\ "src/nested/b.txt" = "src/" ++ m ++ "")
  /\ matchesOnly ["src/" ++ "**" ++ ""] ("src/" ++ "") = Some false.
Proof.
  assert (Ha : literal "src/" = true) by reflexivity.
  assert (Hb : literal "" = true) by reflexivity.
  assert (H1 : JS.includes lineSeparator "src/nested/b.txt" = false) by reflexivity.
  assert (H2 : JS.includes paragraphSeparator "src/nested/b.txt" = false)
    by reflexivity.
  split; [exact Ha|split; [exact Hb|split; [exact H1|split; [exact H2|]]]].
  exact (proj2 (double_star_spans_segments "src/" "" "src/nested/b.txt" Ha Hb H1 H2)).
Defined.

(** *** Directories under a whitelist *)

Lemma matches_empty : forall t ts, RegExp.matches (t :: ts) "" = false.
Proof. intros [c|cs|cs] ts; reflexivity. Qed.

Lemma matches_nil_separator : forall s, RegExp.matches [] (s ++ "/") = false.
Proof. intros [|c s]; reflexivity. Qed.

Lemma rejects_matches : forall ts,
  rejectsSeparatorAtEnd ts = true ->
  forall s, RegExp.matches ts (s ++ "/") = false.
Proof.
  induction ts as [|t ts IH]; intros H; [discriminate|].
  cbn [rejectsSeparatorAtEnd] in H.
  assert (Hrest : forall s, (RegExp.matches ts (s ++ "/") = false)
                            /\ (RegExp.matches ts "" = false
                                \/ (ts = [] /\ termRejectsSeparator t = true))).
  { intros s. destruct ts as [|t' ts'].
    - split; [apply matches_nil_separator|right; auto].
    - split; [now apply IH|left; apply matches_empty]. }
  destruct t as [c|cs|cs].
  - intros [|d s]; cbn [append RegExp.matches].
    + destruct (Hrest "") as [_ [He|[-> Ht]]].
      * rewrite He. apply andb_false_r.
      * cbn [termRejectsSeparator] in Ht. apply negb_true_iff in Ht.
        now rewrite Ht.
    + rewrite (proj1 (Hrest s)). apply andb_false_r.
  - intros [|d s]; cbn [append RegExp.matches].
    + destruct (Hrest "") as [_ [He|[-> Ht]]].
      * rewrite He. apply andb_false_r.
      * destruct cs; [discriminate|reflexivity].
    + rewrite (proj1 (Hrest s)). apply andb_false_r.
  - induction s as [|d s IHs]; cbn [append]; rewrite matches_plus_cons.
    + destruct (Hrest "") as [_ [He|[-> Ht]]].
      * rewrite He. cbn. apply andb_false_r.
      * destruct cs; [discriminate|reflexivity].
    + rewrite (proj1 (Hrest s)), IHs. apply andb_false_r.
Qed.

Lemma some_none_match {A} (f : A -> option bool) :
  forall l, (forall x, In x l -> f x = Some false) -> some f l = Some false.
Proof.
  induction l as [|x l IH]; intros H; simpl; [reflexivity|].
  rewrite (H x (or_introl eq_refl)). apply IH. intros; apply H; now right.
Qed.

Lemma directory_fails_whitelist : forall only relativePath,
  Forall (fun pattern => endsOffSeparator pattern = true) only ->
  matchesOnly only (relativePath ++ "/") = Some false.
Proof.
  intros only relativePath H. unfold matchesOnly. apply some_none_match.
  intros pattern Hin.
  pose proof (proj1 (Forall_forall _ _) H pattern Hin) as Hp.
  unfold endsOffSeparator in Hp.
  destruct (RegExp.create (regexSource pattern)) as [ts|]; [|discriminate].
  unfold RegExp.test. now rewrite (rejects_matches ts Hp).
Qed.

(** X4.  Under a whitelist whose patterns all end with an ordinary
    character other than the separator or with a single [*], no directory
    is a valid entry, whatever its name: a directory is tested with the
    separator after its path.  The walk then lists files of the directory
    it starts from and never goes below: it is the walk of the listing
    without its directories. *)
Theorem whitelist_without_separator_stays_flat :
  forall rootDir ig only includeContentsHeader,
    only <> [] ->
    Forall (fun pattern => endsOffSeparator pattern = true) only ->
    (forall currentDir entryName child,
        isDir child = true ->
        isValidEntry rootDir ig only currentDir
                     (direntOf rootDir ig only includeContentsHeader (entryName, child))
        = Some false)
    /\ (forall entries currentDir prefix st,
           traverseDirectory rootDir ig only includeContentsHeader (Dir entries)
                             currentDir prefix st
           = traverseDirectory rootDir ig only includeContentsHeader
                               (Dir (filter (fun e => negb (isDir (snd e))) entries))
                               currentDir prefix st).
Proof.
  intros rootDir ig only includeContentsHeader Hne Hall.
  assert (Hdir : forall currentDir entryName child,
             isDir child = true ->
             isValidEntry rootDir ig only currentDir
                          (direntOf rootDir ig only includeContentsHeader
                                    (entryName, child))
             = Some false).
  { intros currentDir entryName child Hd.
    unfold isValidEntry, checkPathOf.
    change (isDirectory (direntOf rootDir ig only includeContentsHeader
                                  (entryName, child))) with (isDir child).
    rewrite Hd. cbn [direntOf name fst].
    rewrite (directory_fails_whitelist only _ Hall).
    destruct only; [congruence|reflexivity]. }
  split; [exact Hdir|].
  intros entries currentDir prefix st.
  cbn [traverseDirectory]. unfold traverseEntries.
  assert (Hf : filterEntries (isValidEntry rootDir ig only currentDir)
                 (map (direntOf rootDir ig only includeContentsHeader) entries)
               = filterEntries (isValidEntry rootDir ig only currentDir)
                   (map (direntOf rootDir ig only includeContentsHeader)
                        (filter (fun e => negb (isDir (snd e))) entries))).
  { induction entries as [|[entryName child] entries IH]; [reflexivity|].
    cbn [map filter snd]. destruct (isDir child) eqn:Hd; cbn [negb].
    - cbn [filterEntries]. rewrite (Hdir currentDir entryName child Hd), IH.
      match goal with |- match ?x with _ => _ end = _ => destruct x end; reflexivity.
    - cbn [map filterEntries]. now rewrite IH. }
  unfold direntOf in Hf. now rewrite Hf.
Qed.

Lemma whitelist_without_separator_stays_flat_witness :
  ["*.js"; "src"; "docs/*"] <> []
  /\ Forall (fun pattern => endsOffSeparator pattern = true) ["*.js"; "src"; "docs/*"]
  /\ traverseDirectory targetDir neverIgnored ["*.js"; "src"; "docs/*"] true srcLibTree
                       targetDir "" {| structure := ""; contents := ""; console := [] |}
     = traverseDirectory targetDir neverIgnored ["*.js"; "src"; "docs/*"] true
                         (Dir (filter (fun e => negb (isDir (snd e)))
                                      [("src", Dir [("a.txt", File (Content "alpha"));
                                                    ("nested",
                                                     Dir [("b.txt", File (Content "beta"))])]);
                                       ("lib", Dir [("c.txt", File (Content "gamma"))])]))
                         targetDir "" {| structure := ""; contents := ""; console := [] |}.
Proof.
  assert (H1 : ["*.js"; "src"; "docs/*"] <> []) by discriminate.
  assert (H2 : Forall (fun pattern => endsOffSeparator pattern = true)
                      ["*.js"; "src"; "docs/*"])
    by (constructor; [reflexivity|constructor; [reflexivity|
                       constructor; [reflexivity|constructor]]]).
  split; [exact H1|split; [exact H2|]].
  exact (proj2 (whitelist_without_separator_stays_flat
                  targetDir neverIgnored ["*.js"; "src"; "docs/*"] true H1 H2)
               _ targetDir "" {| structure := ""; contents := ""; console := [] |}).
Defined.

(** *** Entries that the filter drops *)

(** X5.  An entry that the ignore rules match leaves no trace, and what is
    below it is never read: when the whitelist test of the entry does not
    raise, the walk of the listing is the walk of the listing without the
    entry, whatever the entry is and holds. *)
Theorem ignored_entry_leaves_no_trace :
  forall rootDir ig only includeContentsHeader before entryName child after
         currentDir prefix st,
    ig (checkPathOf rootDir currentDir entryName (isDir child)) = true ->
    matchesOnly only (checkPathOf rootDir currentDir entryName (isDir child)) <> None ->
    traverseDirectory rootDir ig only includeContentsHeader
                      (Dir (before ++ (entryName, child) :: after)) currentDir prefix st
    = traverseDirectory rootDir ig only includeContentsHeader
                        (Dir (before ++ after)) currentDir prefix st.
Proof.
  intros rootDir ig only includeContentsHeader before entryName child after
         currentDir prefix st Hig Hmatch.
  cbn [traverseDirectory]. unfold traverseEntries.
  rewrite !map_app. cbn [map].
  rewrite filterEntries_drop; [reflexivity|].
  unfold isValidEntry.
  change (isDirectory {| name := fst (entryName, child);
                         kind := kindOf (snd (entryName, child));
                         descend := traverseDirectory rootDir ig only
                                      includeContentsHeader (snd (entryName, child)) |})
    with (isDir child).
  cbn [name fst]. rewrite Hig.
  destruct (matchesOnly only _) as [[|]|]; [| |congruence];
    now destruct (negb (Nat.eqb (List.length only) 0)).
Qed.

Lemma ignored_entry_leaves_no_trace_witness :
  Ignore.ignores (Ignore.add [] ["dist/"])
                 (checkPathOf targetDir targetDir "dist" (isDir (DirError "EACCES"))) = true
  /\ matchesOnly [] (checkPathOf targetDir targetDir "dist" (isDir (DirError "EACCES")))
     <> None
  /\ traverseDirectory targetDir (Ignore.ignores (Ignore.add [] ["dist/"])) [] true
                       (Dir ([("a.txt", File (Content "a"))]
                             ++ ("dist", DirError "EACCES") :: [])%list)
                       targetDir "" {| structure := ""; contents := ""; console := [] |}
     = traverseDirectory targetDir (Ignore.ignores (Ignore.add [] ["dist/"])) [] true
                         (Dir ([("a.txt", File (Content "a"))] ++ [])%list)
                         targetDir "" {| structure := ""; contents := ""; console := [] |}.
Proof.
  assert (H1 : Ignore.ignores (Ignore.add [] ["dist/"])
                 (checkPathOf targetDir targetDir "dist" (isDir (DirError "EACCES")))
               = true) by reflexivity.
  assert (H2 : matchesOnly [] (checkPathOf targetDir targetDir "dist"
                                           (isDir (DirError "EACCES"))) <> None)
    by discriminate.
  split; [exact H1|split; [exact H2|]].
  exact (ignored_entry_leaves_no_trace
           targetDir (Ignore.ignores (Ignore.add [] ["dist/"])) [] true
           [("a.txt", File (Content "a"))] "dist" (DirError "EACCES") []
           targetDir "" {| structure := ""; contents := ""; console := [] |} H1 H2).
Defined.

Lemma some_app_true {A} (f : A -> option bool) :
  forall l extra, some f l = Some true -> some f (l ++ extra) = Some true.
Proof.
  induction l as [|x l IH]; intros extra H; simpl in *; [discriminate|].
  destruct (f x) as [[|]|]; auto; discriminate.
Qed.

(** X6.  Patterns added after those of a whitelist never take an entry
    away: an entry that is valid under a whitelist is valid under the
    whitelist with any patterns added at its end, also patterns that are no
    regular expression, which are not reached. *)
Theorem whitelist_extension_keeps_entries :
  forall rootDir ig only extra currentDir entry,
    only <> [] ->
    isValidEntry rootDir ig only currentDir entry = Some true ->
    isValidEntry rootDir ig (only ++ extra) currentDir entry = Some true.
Proof.
  intros rootDir ig only extra currentDir entry Hne H.
  unfold isValidEntry in *.
  destruct only as [|pattern only]; [congruence|].
  cbn [app List.length Nat.eqb negb] in *.
  destruct (matchesOnly (pattern :: only) _) as [[|]|] eqn:Hm; try discriminate.
  unfold matchesOnly in *.
  change (pattern :: (only ++ extra)%list) with ((pattern :: only) ++ extra)%list.
  now rewrite (some_app_true _ _ extra Hm).
Qed.

Lemma whitelist_extension_keeps_entries_witness :
  ["*.md"] <> []
  /\ isValidEntry targetDir neverIgnored ["*.md"] targetDir
                  {| name := "README.md"; kind := KFile (Content "r");
                     descend := fun _ _ st => Done st |} = Some true
  /\ isValidEntry targetDir neverIgnored (["*.md"] ++ ["("; "src/**"]) targetDir
                  {| name := "README.md"; kind := KFile (Content "r");
                     descend := fun _ _ st => Done st |} = Some true.
Proof.
  assert (H1 : ["*.md"] <> []) by discriminate.
  assert (H2 : isValidEntry targetDir neverIgnored ["*.md"] targetDir
                 {| name := "README.md"; kind := KFile (Content "r");
                    descend := fun _ _ st => Done st |} = Some true) by reflexivity.
  split; [exact H1|split; [exact H2|]].
  exact (whitelist_extension_keeps_entries targetDir neverIgnored ["*.md"]
           ["("; "src/**"] targetDir _ H1 H2).
Defined.

(** *** The output of [main] *)

(** X7.  Whatever the configuration, the tree and the errors, and also
    when the walk raises, the structure text of [main] begins with the
    base name of the target directory and a line feed, and the contents
    text begins with the document header when the header flag is set. *)
Theorem main_output_begins_with_root :
  forall config dir gitignoreFile root logged,
  exists structureRest contentsRest,
    structure (finalState (main config dir gitignoreFile root logged))
    = Path.basename dir ++ nl ++ structureRest
    /\ contents (finalState (main config dir gitignoreFile root logged))
       = (if includeContentsHeader config then documentHeader dir else "")
         ++ contentsRest.
Proof.
  intros config dir gitignoreFile root logged. unfold main.
  destruct (loadGitignore dir (gitignore config) gitignoreFile logged) as [ig0 logged0].
  match goal with
  | |- context [traverseDirectory ?r ?i ?o ?h ?n ?c ?p ?s] =>
      destruct (traverseDirectory_growing r i o h n c p s) as [[s1 Hs] [c1 Hc]]
  end.
  exists s1, c1. rewrite Hs, Hc. cbn [structure contents console_log].
  unfold documentHeader. split; [now rewrite append_assoc|reflexivity].
Qed.

(** X8.  The header flag changes nothing in the structure text: with a
    whitelist within the dialect, the walks with the flag set and not set
    end with the same structure buffer. *)
Theorem header_flag_keeps_structure :
  forall rootDir ig only dir currentDir prefix st,
    Forall (fun pattern => patternOk pattern = true) only ->
    structure (finalState (traverseDirectory rootDir ig only true dir
                                             currentDir prefix st))
    = structure (finalState (traverseDirectory rootDir ig only false dir
                                               currentDir prefix st)).
Proof.
  intros rootDir ig only dir currentDir prefix st Hok.
  destruct (traverseDirectory_shape rootDir ig only true Hok dir currentDir prefix st)
    as [st1 [Hrun1 [Hst1 _]]].
  destruct (traverseDirectory_shape rootDir ig only false Hok dir currentDir prefix st)
    as [st2 [Hrun2 [Hst2 _]]].
  rewrite Hrun1, Hrun2. cbn [finalState]. now rewrite Hst1, Hst2.
Qed.

Lemma header_flag_keeps_structure_witness :
  Forall (fun pattern => patternOk pattern = true) ["*.txt"]
  /\ structure (finalState (traverseDirectory targetDir neverIgnored ["*.txt"] true
                                              brokenTree targetDir ""
                                              {| structure := ""; contents := "";
                                                 console := [] |}))
     = structure (finalState (traverseDirectory targetDir neverIgnored ["*.txt"] false
                                                brokenTree targetDir ""
                                                {| structure := ""; contents := "";
                                                   console := [] |})).
Proof.
  assert (H : Forall (fun pattern => patternOk pattern = true) ["*.txt"])
    by (constructor; [reflexivity|constructor]).
  split; [exact H|].
  exact (header_flag_keeps_structure targetDir neverIgnored ["*.txt"] brokenTree
           targetDir "" {| structure := ""; contents := ""; console := [] |} H).
Defined.

(** *** A tree without failures *)

Section Quiet.

Variable rootDir : string.
Variable ig : string -> bool.
Variable only : list string.
Variable includeContentsHeader : bool.
Hypothesis onlyOk : Forall (fun pattern => patternOk pattern = true) only.

Let dirent := direntOf rootDir ig only includeContentsHeader.

Let quiet (n : Node) : Prop :=
  readable n = true ->
  isDir n = true ->
  forall currentDir prefix st,
  exists st',
    traverseDirectory rootDir ig only includeContentsHeader n currentDir prefix st
    = Done st'
    /\ console st' = console st.

Lemma forEntries_quiet : forall entries len i currentDir prefix st,
  Forall (fun e => readable (snd e) = true /\ quiet (snd e)) entries ->
  exists st',
    forEntries rootDir includeContentsHeader len i (map dirent entries)
               currentDir prefix st = Done st'
    /\ console st' = console st.
Proof.
  induction entries as [|[entryName child] rest IH];
    intros len i currentDir prefix st Hall.
  - now exists st.
  - inversion Hall as [|? ? [Hread Hquiet] Hrest]; subst.
    cbn [map forEntries]. unfold visitEntry.
    cbn [dirent direntOf name kind descend fst snd] in *.
    destruct child as [[content|code message]|entries|message|];
      cbn [kindOf]; try discriminate.
    + destruct (IH len (S i) currentDir prefix
                   (appendContents nl
                      (appendContents content
                         (if includeContentsHeader
                          then appendContents
                                 (nl ++ "/* --- File: "
                                     ++ Path.relative rootDir
                                          (Path.join currentDir entryName)
                                     ++ " --- */" ++ nl ++ nl)
                                 (appendStructure
                                    (prefix
                                     ++ (if Nat.eqb i (len - 1) then "└── " else "├── ")
                                     ++ entryName ++ nl) st)
                          else appendStructure
                                 (prefix
                                  ++ (if Nat.eqb i (len - 1) then "└── " else "├── ")
                                  ++ entryName ++ nl) st))) Hrest)
        as [st' [Hrun Hc]].
      exists st'; split; [exact Hrun|].
      rewrite Hc. now destruct includeContentsHeader.
    + destruct (Hquiet Hread eq_refl (Path.join currentDir entryName)
                       (prefix ++ (if Nat.eqb i (len - 1) then "    " else "│   "))
                       (appendStructure
                          (prefix ++ (if Nat.eqb i (len - 1) then "└── " else "├── ")
                                  ++ entryName ++ nl) st))
        as [st1 [Hrun1 Hc1]].
      rewrite Hrun1.
      destruct (IH len (S i) currentDir prefix st1 Hrest) as [st' [Hrun Hc]].
      exists st'; split; [exact Hrun|]. now rewrite Hc, Hc1.
    + destruct (IH len (S i) currentDir prefix
                   (appendStructure
                      (prefix ++ (if Nat.eqb i (len - 1) then "└── " else "├── ")
                              ++ entryName ++ nl) st) Hrest)
        as [st' [Hrun Hc]].
      exists st'; split; [exact Hrun|]. now rewrite Hc.
Qed.

Lemma traverseDirectory_quiet : forall n, quiet n.
Proof.
  induction n as [read|entries IH|message|] using Node_induction;
    intros Hread Hdir currentDir prefix st; try discriminate.
  change (traverseDirectory rootDir ig only includeContentsHeader (Dir entries)
                            currentDir prefix st)
    with (traverseEntries rootDir ig only includeContentsHeader
                          (map dirent entries) currentDir prefix st).
  unfold traverseEntries, dirent. rewrite (validEntries_survivors _ _ _ _ onlyOk).
  apply forEntries_quiet.
  apply Forall_forall. intros e He. apply filter_In in He. destruct He as [He _].
  split.
  - cbn [readable] in Hread.
    exact (proj1 (forallb_forall _ _) Hread e He).
  - exact (proj1 (Forall_forall _ _) IH e He).
Qed.

End Quiet.

(** X9.  The walk writes on the console for failures only: over a tree in
    which every directory can be listed and every file read, under a
    whitelist within the dialect, it returns and leaves the console as it
    was. *)
Theorem readable_tree_leaves_console :
  forall rootDir ig only includeContentsHeader entries currentDir prefix st,
    Forall (fun pattern => patternOk pattern = true) only ->
    readable (Dir entries) = true ->
    exists st',
      traverseDirectory rootDir ig only includeContentsHeader (Dir entries)
                        currentDir prefix st = Done st'
      /\ console st' = console st.
Proof.
  intros rootDir ig only includeContentsHeader entries currentDir prefix st Hok Hread.
  exact (traverseDirectory_quiet rootDir ig only includeContentsHeader Hok
                                 (Dir entries) Hread eq_refl currentDir prefix st).
Qed.

Lemma readable_tree_leaves_console_witness :
  Forall (fun pattern => patternOk pattern = true) []
  /\ readable (Dir [("src", Dir [("a.txt", File (Content "alpha"));
                                 ("nested", Dir [("b.txt", File (Content "beta"))])]);
                    ("lib", Dir [("c.txt", File (Content "gamma"))])]) = true
  /\ exists st',
      traverseDirectory targetDir neverIgnored [] true
                        (Dir [("src", Dir [("a.txt", File (Content "alpha"));
                                           ("nested",
                                            Dir [("b.txt", File (Content "beta"))])]);
                              ("lib", Dir [("c.txt", File (Content "gamma"))])])
                        targetDir "" {| structure := ""; contents := ""; console := [] |}
      = Done st'
      /\ console st' = [].
Proof.
  assert (H1 : Forall (fun pattern => patternOk pattern = true) []) by constructor.
  assert (H2 : readable (Dir [("src", Dir [("a.txt", File (Content "alpha"));
                                           ("nested",
                                            Dir [("b.txt", File (Content "beta"))])]);
                              ("lib", Dir [("c.txt", File (Content "gamma"))])]) = true)
    by reflexivity.
  split; [exact H1|split; [exact H2|]].
  exact (readable_tree_leaves_console targetDir neverIgnored [] true _ targetDir ""
           {| structure := ""; contents := ""; console := [] |} H1 H2).
Defined.

(** *** The lines of the structure text *)

Lemma includes_char_app : forall c a b,
  JS.includes (String c "") (a ++ b)
  = JS.includes (String c "") a || JS.includes (String c "") b.
Proof.
  intros c a b. induction a as [|d a IH].
  - cbn [append JS.includes JS.startsWith orb]. reflexivity.
  - cbn [append]. 
    change (JS.includes (String c "") (String d (a ++ b)))
      with (Ascii.eqb c d && true || JS.includes (String c "") (a ++ b)).
    change (JS.includes (String c "") (String d a))
      with (Ascii.eqb c d && true || JS.includes (String c "") a).
    rewrite IH. now rewrite orb_assoc.
Qed.

Lemma includes_nl_app : forall a b,
  JS.includes nl a = false -> JS.includes nl b = false ->
  JS.includes nl (a ++ b) = false.
Proof.
  intros a b Ha Hb. unfold nl in *. now rewrite includes_char_app, Ha, Hb.
Qed.

Lemma countLines_app : forall a b,
  countLines (a ++ b) = countLines a + countLines b.
Proof.
  induction a as [|c a IH]; intros b; [reflexivity|].
  cbn [append countLines]. rewrite IH. lia.
Qed.

Lemma countLines_none : forall s, JS.includes nl s = false -> countLines s = 0.
Proof.
  induction s as [|c s IH]; intros H; [reflexivity|].
  pose proof (includes_tail _ _ _ H) as Ht.
  pose proof (startsWith_includes _ _ H) as Hs.
  unfold nl in Hs. cbn [JS.startsWith] in Hs. rewrite andb_true_r in Hs.
  cbn [countLines]. rewrite (Ascii.eqb_sym c "010"), Hs, (IH Ht). reflexivity.
Qed.

Lemma hasLines_nil : forall prefix, hasLines prefix 0 "".
Proof. intros prefix. exists []. repeat split. constructor. Qed.

Lemma hasLines_app : forall prefix n m a b,
  hasLines prefix n a -> hasLines prefix m b -> hasLines prefix (n + m) (a ++ b).
Proof.
  intros prefix n m a b [la [-> [Hna Hla]]] [lb [-> [Hnb Hlb]]].
  exists (la ++ lb)%list. repeat split.
  - now rewrite concat_text_app.
  - now rewrite length_app, Hna, Hnb.
  - apply Forall_app; auto.
Qed.

Lemma hasLines_line : forall prefix body,
  JS.includes nl body = false -> hasLines prefix 1 (prefix ++ body ++ nl).
Proof.
  intros prefix body Hbody. exists [prefix ++ body ++ nl]. repeat split.
  - cbn. now rewrite append_empty_r.
  - constructor; [now exists body|constructor].
Qed.

Lemma hasLines_deeper : forall prefix more n text,
  JS.includes nl more = false ->
  hasLines (prefix ++ more) n text -> hasLines prefix n text.
Proof.
  intros prefix more n text Hmore [lines [-> [Hn Hl]]].
  exists lines. repeat split; auto.
  eapply Forall_impl; [|exact Hl].
  intros line [body [Hbody ->]]. exists (more ++ body). split.
  - now apply includes_nl_app.
  - now rewrite !append_assoc.
Qed.

Lemma hasLines_count : forall prefix n text,
  JS.includes nl prefix = false -> hasLines prefix n text -> countLines text = n.
Proof.
  intros prefix n text Hprefix [lines [-> [<- Hl]]].
  induction Hl as [|line lines [body [Hbody ->]] _ IH]; [reflexivity|].
  cbn [fold_right List.length]. rewrite !countLines_app, IH.
  rewrite (countLines_none _ Hprefix), (countLines_none _ Hbody). reflexivity.
Qed.

Lemma structureOf_lines : forall rootDir ig only dir,
  namesOnOneLine dir = true ->
  forall currentDir prefix,
    hasLines prefix (entriesListed rootDir ig only dir currentDir)
             (structureOf rootDir ig only dir currentDir prefix).
Proof.
  intros rootDir ig only.
  induction dir as [read|entries IH|message|] using Node_induction;
    intros Hnames currentDir prefix; try apply hasLines_nil.
  cbn [structureOf entriesListed].
  rewrite (flat_map_filter (survives rootDir ig only currentDir)
             (fun e => (fst e, structureOf rootDir ig only (snd e)
                                           (Path.join currentDir (fst e))))),
          (flat_map_filter (survives rootDir ig only currentDir)
             (fun e => S (entriesListed rootDir ig only (snd e)
                                        (Path.join currentDir (fst e))))).
  assert (Hall : Forall (fun e => JS.includes nl (fst e) = false
                                  /\ forall currentDir prefix,
                                       hasLines prefix
                                         (entriesListed rootDir ig only (snd e)
                                                        currentDir)
                                         (structureOf rootDir ig only (snd e)
                                                      currentDir prefix))
                        (filter (survives rootDir ig only currentDir) entries)).
  { apply Forall_forall. intros e He. apply filter_In in He. destruct He as [He _].
    cbn [namesOnOneLine] in Hnames.
    pose proof (proj1 (forallb_forall _ _) Hnames e He) as Hn.
    apply andb_true_iff in Hn. destruct Hn as [Hn1 Hn2].
    apply negb_true_iff in Hn1. split; [exact Hn1|].
    exact (proj1 (Forall_forall _ _) IH e He Hn2). }
  induction (filter (survives rootDir ig only currentDir) entries) as [|e l IHl];
    [apply hasLines_nil|].
  inversion Hall as [|? ? [Hname He] Hl]; subst.
  cbn [map treeLines list_sum fold_right fst snd].
  destruct l as [|e' l'].
  - cbn [map list_sum fold_right]. rewrite Nat.add_0_r.
    replace (prefix ++ "└── " ++ fst e ++ nl
             ++ structureOf rootDir ig only (snd e) (Path.join currentDir (fst e))
                            (prefix ++ "    "))
      with ((prefix ++ ("└── " ++ fst e) ++ nl)
            ++ structureOf rootDir ig only (snd e) (Path.join currentDir (fst e))
                           (prefix ++ "    "))
      by (now rewrite !append_assoc).
    apply (hasLines_app prefix 1
             (entriesListed rootDir ig only (snd e) (Path.join currentDir (fst e)))).
    + apply hasLines_line. now apply includes_nl_app.
    + apply (hasLines_deeper prefix "    "); [reflexivity|]. apply He.
  - replace (prefix ++ "├── " ++ fst e ++ nl
             ++ structureOf rootDir ig only (snd e) (Path.join currentDir (fst e))
                            (prefix ++ "│   ")
             ++ treeLines prefix
                  (map (fun e0 => (fst e0,
                                   structureOf rootDir ig only (snd e0)
                                               (Path.join currentDir (fst e0))))
                       (e' :: l')))
      with (((prefix ++ ("├── " ++ fst e) ++ nl)
             ++ structureOf rootDir ig only (snd e) (Path.join currentDir (fst e))
                            (prefix ++ "│   "))
            ++ treeLines prefix
                 (map (fun e0 => (fst e0,
                                  structureOf rootDir ig only (snd e0)
                                              (Path.join currentDir (fst e0))))
                      (e' :: l')))
      by (now rewrite !append_assoc).
    apply (hasLines_app prefix
             (1 + entriesListed rootDir ig only (snd e) (Path.join currentDir (fst e))));
      [apply (hasLines_app prefix 1)|].
    + apply hasLines_line. now apply includes_nl_app.
    + apply (hasLines_deeper prefix "│   "); [reflexivity|]. apply He.
    + apply IHl. exact Hl.
Qed.

(** X10.  When no name in the tree and not the prefix holds a line feed,
    the structure text has exactly one line for each entry that survives
    the filters, at every depth: under a whitelist within the dialect the
    walk appends a text with as many line feeds as there are such entries
    below the directory, made of that many lines, each of them the prefix of
    the call, a body without line feed, and a line feed. *)
Theorem one_structure_line_per_entry :
  forall rootDir ig only includeContentsHeader dir currentDir prefix st,
    Forall (fun pattern => patternOk pattern = true) only ->
    namesOnOneLine dir = true ->
    JS.includes nl prefix = false ->
    exists st' text,
      traverseDirectory rootDir ig only includeContentsHeader dir currentDir prefix st
      = Done st'
      /\ structure st' = structure st ++ text
      /\ countLines text = entriesListed rootDir ig only dir currentDir
      /\ hasLines prefix (entriesListed rootDir ig only dir currentDir) text.
Proof.
  intros rootDir ig only includeContentsHeader dir currentDir prefix st
         Hok Hnames Hprefix.
  destruct (traverseDirectory_shape rootDir ig only includeContentsHeader Hok
                                    dir currentDir prefix st) as [st' [Hrun [Hst _]]].
  pose proof (structureOf_lines rootDir ig only dir Hnames currentDir prefix) as Hlines.
  exists st', (structureOf rootDir ig only dir currentDir prefix).
  split; [exact Hrun|split; [exact Hst|split; [|exact Hlines]]].
  exact (hasLines_count prefix _ _ Hprefix Hlines).
Qed.

Lemma one_structure_line_per_entry_witness :
  Forall (fun pattern => patternOk pattern = true) []
  /\ namesOnOneLine srcLibTree = true
  /\ JS.includes nl "" = false
  /\ exists st' text,
      traverseDirectory targetDir neverIgnored [] false srcLibTree targetDir ""
                        {| structure := "root" ++ nl; contents := ""; console := [] |}
      = Done st'
      /\ structure st' = ("root" ++ nl) ++ text
      /\ countLines text = entriesListed targetDir neverIgnored [] srcLibTree targetDir
      /\ hasLines "" (entriesListed targetDir neverIgnored [] srcLibTree targetDir) text.
Proof.
  assert (H1 : Forall (fun pattern => patternOk pattern = true) []) by constructor.
  assert (H2 : namesOnOneLine srcLibTree = true) by reflexivity.
  assert (H3 : JS.includes nl "" = false) by reflexivity.
  split; [exact H1|split; [exact H2|split; [exact H3|]]].
  exact (one_structure_line_per_entry targetDir neverIgnored [] false srcLibTree
           targetDir "" {| structure := "root" ++ nl; contents := ""; console := [] |}
           H1 H2 H3).
Defined.

(** *** Relative paths *)

Lemma split_plain : forall s, JS.includes "/" s = false -> JS.split "/" s = [s].
Proof.
  induction s as [|c s IH]; intros H; [reflexivity|].
  pose proof (includes_tail _ _ _ H) as Ht.
  pose proof (startsWith_includes _ _ H) as Hs.
  cbn [JS.startsWith] in Hs. rewrite andb_true_r in Hs.
  cbn [JS.split]. rewrite (Ascii.eqb_sym c "/"), Hs, (IH Ht). reflexivity.
Qed.

Lemma plainName_segments : forall entryName,
  plainName entryName = true -> Path.segments entryName = [entryName].
Proof.
  intros entryName H. unfold plainName in H. apply andb_true_iff in H.
  destruct H as [Hne Hslash]. apply negb_true_iff in Hslash.
  unfold Path.segments. rewrite (split_plain _ Hslash).
  cbn [filter]. unfold Path.nonEmpty. now rewrite Hne.
Qed.

Lemma relativePathOf_below : forall rootDir currentDir entryName below,
  Path.segments currentDir = (Path.segments rootDir ++ below)%list ->
  Path.segments entryName = [entryName] ->
  relativePathOf rootDir currentDir entryName = JS.join "/" (below ++ [entryName]).
Proof.
  intros rootDir currentDir entryName below Hin Hname.
  unfold relativePathOf, Path.relative.
  now rewrite segments_join, Hin, Hname, <- app_assoc, stripCommon_prefix.
Qed.

(** X11.  The relative path of an entry is built along the walk: an entry
    of the root has its bare name, and an entry of a directory below the
    root has the relative path of that directory, the separator, and its
    name.  These are the paths of the file headers and of the filters. *)
Theorem relative_path_follows_walk :
  forall rootDir currentDir entryName childName,
    inside rootDir currentDir ->
    plainName entryName = true ->
    plainName childName = true ->
    relativePathOf rootDir rootDir entryName = entryName
    /\ relativePathOf rootDir (Path.join currentDir entryName) childName
       = relativePathOf rootDir currentDir entryName ++ "/" ++ childName.
Proof.
  intros rootDir currentDir entryName childName [below Hin] Hname Hchild.
  pose proof (plainName_segments _ Hname) as Sname.
  pose proof (plainName_segments _ Hchild) as Schild.
  split.
  - rewrite (relativePathOf_below rootDir rootDir entryName []); auto.
    now rewrite app_nil_r.
  - rewrite (relativePathOf_below rootDir (Path.join currentDir entryName) childName
                                  (below ++ [entryName])); auto.
    + rewrite (relativePathOf_below rootDir currentDir entryName below); auto.
      rewrite (join_snoc (below ++ [entryName]) childName).
      destruct (below ++ [entryName])%list eqn:Hb; [|reflexivity].
      now destruct below.
    + now rewrite segments_join, Hin, Sname, app_assoc.
Qed.

Lemma relative_path_follows_walk_witness :
  inside targetDir (Path.join targetDir "src")
  /\ plainName "nested" = true
  /\ plainName "b.txt" = true
  /\ relativePathOf targetDir (Path.join (Path.join targetDir "src") "nested") "b.txt"
     = relativePathOf targetDir (Path.join targetDir "src") "nested" ++ "/" ++ "b.txt".
Proof.
  assert (H1 : inside targetDir (Path.join targetDir "src"))
    by (exists ["src"]; reflexivity).
  assert (H2 : plainName "nested" = true) by reflexivity.
  assert (H3 : plainName "b.txt" = true) by reflexivity.
  split; [exact H1|split; [exact H2|split; [exact H3|]]].
  exact (proj2 (relative_path_follows_walk targetDir (Path.join targetDir "src")
                  "nested" "b.txt" H1 H2 H3)).
Defined.

(** *** The command line *)

Lemma argvIncludes_In : forall argv arg,
  argvIncludes argv arg = true <-> In arg argv.
Proof.
  intros argv arg. unfold argvIncludes. rewrite existsb_exists. split.
  - intros [x [Hin Hx]]. apply String.eqb_eq in Hx. now subst.
  - intros H. exists arg. split; [exact H|apply String.eqb_refl].
Qed.

(** X12.  The flags that make [main] stop are looked for in the whole
    command line, so they win wherever they stand, also as the target
    directory or as the value of another option: [--help] or [-h] before
    all, then [--version] or [-v], then [--init]. *)
Theorem exit_flags_win_anywhere :
  forall argv,
    (In "--help" argv \/ In "-h" argv -> mainCommand argv = PrintHelp)
    /\ (~ In "--help" argv -> ~ In "-h" argv ->
        In "--version" argv \/ In "-v" argv -> mainCommand argv = PrintVersion)
    /\ (~ In "--help" argv -> ~ In "-h" argv ->
        ~ In "--version" argv -> ~ In "-v" argv ->
        In "--init" argv -> mainCommand argv = InitConfig).
Proof.
  intros argv.
  assert (Hno : forall arg, ~ In arg argv -> argvIncludes argv arg = false).
  { intros arg H. apply not_true_is_false. intros Ht. apply H.
    now apply argvIncludes_In. }
  unfold mainCommand. repeat split.
  - intros [H|H]; apply argvIncludes_In in H; rewrite H;
      [reflexivity|now rewrite orb_true_r].
  - intros H1 H2 [H|H]; rewrite (Hno _ H1), (Hno _ H2); cbn [orb];
      apply argvIncludes_In in H; rewrite H; [reflexivity|now rewrite orb_true_r].
  - intros H1 H2 H3 H4 H.
    rewrite (Hno _ H1), (Hno _ H2), (Hno _ H3), (Hno _ H4). cbn [orb].
    apply argvIncludes_In in H. now rewrite H.
Qed.

Lemma exit_flags_win_anywhere_witness :
  (In "--help" ["node"; "stl"; "src"; "--output"; "--help"]
   \/ In "-h" ["node"; "stl"; "src"; "--output"; "--help"])
  /\ mainCommand ["node"; "stl"; "src"; "--output"; "--help"] = PrintHelp.
Proof.
  assert (H : In "--help" ["node"; "stl"; "src"; "--output"; "--help"]
              \/ In "-h" ["node"; "stl"; "src"; "--output"; "--help"])
    by (left; simpl; tauto).
  split; [exact H|].
  exact (proj1 (exit_flags_win_anywhere ["node"; "stl"; "src"; "--output"; "--help"]) H).
Defined.

Lemma indexOf_first : forall flag before after,
  ~ In flag before ->
  indexOf flag (before ++ flag :: after) = Some (List.length before).
Proof.
  intros flag before after. induction before as [|a before IH]; intros H.
  - cbn. now rewrite String.eqb_refl.
  - cbn [app indexOf List.length].
    destruct (String.eqb_spec a flag) as [->|Hne]; [exfalso; apply H; now left|].
    rewrite IH by (intros Hin; apply H; now right). reflexivity.
Qed.

(** X13.  The value of [--config] or [--output] is the argument after the
    first occurrence of the option, whatever it is; an option that stands
    last has no value and is passed over in silence.  And the target
    directory is the first argument even when that is an option: for the
    command line [--output DIR], [main] analyses a directory named
    [--output]. *)
Theorem option_values_and_target :
  (forall flag before value after,
      ~ In flag before ->
      optionValue flag (before ++ flag :: value :: after) = Some value)
  /\ (forall flag before,
         ~ In flag before -> optionValue flag (before ++ [flag]) = None)
  /\ (forall node script dir rest,
         let argv := node :: script :: "--output" :: dir :: rest in
         (forall flag, In flag ["--help"; "-h"; "--version"; "-v"; "--init"] ->
                       ~ In flag argv) ->
         node <> "--output" -> script <> "--output" ->
         mainCommand argv
         = Analyze (Some "--output") (optionValue "--config" argv) (Some dir)).
Proof.
  split; [|split].
  - intros flag before value after H. unfold optionValue.
    rewrite indexOf_first by assumption.
    rewrite nth_error_app2 by lia.
    replace (List.length before + 1 - List.length before) with 1 by lia.
    reflexivity.
  - intros flag before H. unfold optionValue.
    rewrite indexOf_first by assumption.
    apply nth_error_None. rewrite length_app. simpl. lia.
  - intros node script dir rest argv Hflags Hn Hs.
    assert (Hno : forall flag,
               In flag ["--help"; "-h"; "--version"; "-v"; "--init"] ->
               argvIncludes argv flag = false).
    { intros flag Hin. apply not_true_is_false. intros Ht.
      apply (Hflags flag Hin). now apply argvIncludes_In. }
    unfold mainCommand.
    rewrite !Hno by (simpl; tauto). cbn [orb].
    f_equal. unfold optionValue, argv. cbn [indexOf].
    destruct (String.eqb_spec node "--output"); [congruence|].
    destruct (String.eqb_spec script "--output"); [congruence|].
    reflexivity.
Qed.

Lemma option_values_and_target_witness :
  (~ In "--config" ["node"; "stl"; "."; "--output"; "out"]
   /\ optionValue "--config"
        (["node"; "stl"; "."; "--output"; "out"] ++ ["--config"]) = None)
  /\ ((forall flag, In flag ["--help"; "-h"; "--version"; "-v"; "--init"] ->
                    ~ In flag ["node"; "stl"; "--output"; "out"])
      /\ "node" <> "--output" /\ "stl" <> "--output"
      /\ mainCommand ["node"; "stl"; "--output"; "out"]
         = Analyze (Some "--output")
                   (optionValue "--config" ["node"; "stl"; "--output"; "out"])
                   (Some "out")).
Proof.
  assert (H : ~ In "--config" ["node"; "stl"; "."; "--output"; "out"])
    by (simpl; intros [H|[H|[H|[H|[H|[]]]]]]; discriminate H).
  assert (Hflags : forall flag,
             In flag ["--help"; "-h"; "--version"; "-v"; "--init"] ->
             ~ In flag ["node"; "stl"; "--output"; "out"]).
  { intros flag Hin Harg. simpl in Hin, Harg.
    destruct Hin as [<-|[<-|[<-|[<-|[<-|[]]]]]];
      destruct Harg as [E|[E|[E|[E|[]]]]]; discriminate E. }
  assert (Hn : "node" <> "--output") by discriminate.
  assert (Hs : "stl" <> "--output") by discriminate.
  split; [split; [exact H|]|split; [exact Hflags|split; [exact Hn|split; [exact Hs|]]]].
  - exact (proj1 (proj2 option_values_and_target) "--config"
                 ["node"; "stl"; "."; "--output"; "out"] H).
  - exact (proj2 (proj2 option_values_and_target) "node" "stl" "out" []
                 Hflags Hn Hs).
Defined.

(** *** What the structure text does not depend on *)

Lemma treeLines_ext : forall prefix l l',
  Forall2 (fun a b => fst a = fst b /\ forall p : string, snd a p = snd b p) l l' ->
  treeLines prefix l = treeLines prefix l'.
Proof.
  intros prefix l l' H. induction H as [|[n b] [n' b'] l l' [Hn Hb] Hrest IH];
    [reflexivity|].
  cbn [fst snd] in Hn, Hb. subst n'. cbn [treeLines].
  rewrite IH, !Hb.
  destruct Hrest; reflexivity.
Qed.

Lemma structureOf_withoutContents : forall rootDir ig only dir currentDir prefix,
  structureOf rootDir ig only (withoutContents dir) currentDir prefix
  = structureOf rootDir ig only dir currentDir prefix.
Proof.
  intros rootDir ig only.
  induction dir as [read|entries IH|message|] using Node_induction;
    intros currentDir prefix; try reflexivity.
  cbn [withoutContents structureOf]. apply treeLines_ext.
  induction entries as [|[entryName child] entries IHe]; [constructor|].
  inversion IH as [|? ? Hchild Hrest]; subst.
  cbn [map flat_map fst snd].
  assert (Hs : survives rootDir ig only currentDir (entryName, withoutContents child)
               = survives rootDir ig only currentDir (entryName, child)).
  { unfold survives, isDir. cbn [fst snd]. now destruct child. }
  rewrite Hs. destruct (survives rootDir ig only currentDir (entryName, child)).
  - cbn [app]. constructor; [|now apply IHe].
    cbn [fst snd]. split; [reflexivity|]. intros p. apply Hchild.
  - cbn [app]. now apply IHe.
Qed.

(** X14.  The structure text depends on the names and kinds of the
    entries only, not on what the files hold nor on whether they can be
    read: under a whitelist within the dialect, the walk ends with the same
    structure buffer over the tree in which every file is empty and
    readable. *)
Theorem structure_ignores_file_contents :
  forall rootDir ig only includeContentsHeader dir currentDir prefix st,
    Forall (fun pattern => patternOk pattern = true) only ->
    structure (finalState (traverseDirectory rootDir ig only includeContentsHeader
                                             dir currentDir prefix st))
    = structure (finalState (traverseDirectory rootDir ig only includeContentsHeader
                                               (withoutContents dir)
                                               currentDir prefix st)).
Proof.
  intros rootDir ig only includeContentsHeader dir currentDir prefix st Hok.
  destruct (traverseDirectory_shape rootDir ig only includeContentsHeader Hok
                                    dir currentDir prefix st)
    as [st1 [Hrun1 [Hst1 _]]].
  destruct (traverseDirectory_shape rootDir ig only includeContentsHeader Hok
                                    (withoutContents dir) currentDir prefix st)
    as [st2 [Hrun2 [Hst2 _]]].
  rewrite Hrun1, Hrun2. cbn [finalState].
  now rewrite Hst1, Hst2, structureOf_withoutContents.
Qed.

Lemma structure_ignores_file_contents_witness :
  Forall (fun pattern => patternOk pattern = true) []
  /\ structure (finalState (traverseDirectory targetDir neverIgnored [] true brokenTree
                                              targetDir ""
                                              {| structure := ""; contents := "";
                                                 console := [] |}))
     = structure (finalState (traverseDirectory targetDir neverIgnored [] true
                                                (withoutContents brokenTree)
                                                targetDir ""
                                                {| structure := ""; contents := "";
                                                   console := [] |})).
Proof.
  assert (H : Forall (fun pattern => patternOk pattern = true) []) by constructor.
  split; [exact H|].
  exact (structure_ignores_file_contents targetDir neverIgnored [] true brokenTree
           targetDir "" {| structure := ""; contents := ""; console := [] |} H).
Defined.

(** *** No star is left in the expression *)

Lemma replaceAll_leaves_no_star : forall rep s,
  JS.includes "*" rep = false ->
  JS.includes "*" (JS.replaceAll "*" rep s) = false.
Proof.
  intros rep s Hrep. unfold JS.replaceAll.
  induction s as [|c s IH]; [reflexivity|].
  cbn [JS.replaceAll_from JS.startsWith String.length Nat.sub].
  rewrite andb_true_r.
  destruct (Ascii.eqb "*" c) eqn:Hc.
  - now rewrite includes_char_app, Hrep, IH.
  - change (JS.includes "*" (String c (JS.replaceAll_from "*" rep 0 s)))
      with (Ascii.eqb "*" c && true
            || JS.includes "*" (JS.replaceAll_from "*" rep 0 s)).
    now rewrite Hc, IH.
Qed.

(** X15.  No [*] of a whitelist pattern reaches the regular expression:
    the source built from any pattern holds no [*], so a star is never the
    repetition of what stands before it. *)
Theorem regex_source_has_no_star :
  forall pattern, JS.includes "*" (regexSource pattern) = false.
Proof.
  intros pattern. unfold regexSource.
  change ("^" ++ JS.replaceAll "*" "([^/]+)" (JS.replaceAll "**" "(.+)" pattern) ++ "$")
    with (String "^" (JS.replaceAll "*" "([^/]+)" (JS.replaceAll "**" "(.+)" pattern)
                      ++ "$")).
  change (JS.includes "*" (String "^" ?x)) with (false || JS.includes "*" x).
  cbn [orb]. rewrite includes_char_app.
  now rewrite replaceAll_leaves_no_star.
Qed.

(** *** The built-in names, when no rule takes them back *)

Lemma testOne_stays : forall p rules,
  (forall r, In r rules -> Ignore.negative r = true -> Ignore.ruleTest r p = false) ->
  fold_left (fun ignored r =>
               if Ignore.ruleTest r p then negb (Ignore.negative r) else ignored)
            rules true
  = true.
Proof.
  intros p rules. induction rules as [|r rules IH]; intros H; [reflexivity|].
  cbn [fold_left].
  assert (Hstep : (if Ignore.ruleTest r p then negb (Ignore.negative r) else true)
                  = true).
  { destruct (Ignore.negative r) eqn:Hneg.
    - now rewrite (H r (or_introl eq_refl) Hneg).
    - now destruct (Ignore.ruleTest r p). }
  rewrite Hstep. apply IH. intros r' Hin. apply H. now right.
Qed.

Lemma ignores_builtin_unless_negated : forall rules entryName p above,
  (forall r, In r rules -> Ignore.negative r = true -> Ignore.ruleTest r p = false) ->
  alwaysIgnored entryName = true ->
  Path.segments p = (above ++ [entryName])%list ->
  Ignore.ignores (Ignore.add [] ALWAYS_IGNORE ++ rules)%list p = true.
Proof.
  intros rules entryName p above Hneg Hname Hseg.
  unfold Ignore.ignores. apply orb_true_iff; right.
  unfold Ignore.testOne. rewrite fold_left_app.
  rewrite (testOne_positive p (Ignore.add [] ALWAYS_IGNORE) false)
    by (repeat constructor).
  cbn [orb]. rewrite (builtin_rule_matches entryName p above Hname Hseg).
  now apply testOne_stays.
Qed.

(** X16.  The built-in names are ignored as long as no later rule takes
    them back: for every configuration without whitelist in which no
    negation, from the [.gitignore] file or from the extra patterns,
    matches a path that ends with [.git], [node_modules], [structure.txt]
    or [contents.txt], the entries of these names leave no trace at any
    depth, and the run is the run over the tree without them. *)
Theorem always_ignored_unless_negated :
  forall config dir gitignoreFile root logged,
    only config = [] ->
    (forall r p,
        In r (userRules config gitignoreFile) ->
        Ignore.negative r = true ->
        endsWithAlwaysIgnored p ->
        Ignore.ruleTest r p = false) ->
    main config dir gitignoreFile root logged
    = main config dir gitignoreFile (withoutAlwaysIgnored root) logged.
Proof.
  intros config dir gitignoreFile root logged Honly Hneg. unfold main.
  pose proof (loadGitignore_rules config dir gitignoreFile logged) as Hrules.
  destruct (loadGitignore dir (gitignore config) gitignoreFile logged) as [ig0 logged0].
  cbn [fst] in Hrules. rewrite Hrules, Honly.
  apply traverseDirectory_pruned; [|apply inside_refl].
  intros currentDir entryName isDirectory Hin Hname.
  destruct (segments_checkPath dir currentDir entryName isDirectory Hin
                               (alwaysIgnored_segments entryName Hname))
    as [above Hseg].
  apply ignores_builtin_unless_negated with (entryName := entryName) (above := above);
    auto.
  intros r Hr Hnegative. apply Hneg; auto.
  now exists above, entryName.
Qed.

Lemma matchSegments_last : forall tokens above entryName,
  Ignore.matchSegments [Ignore.StarStar; Ignore.Segment tokens] (above ++ [entryName])
  = Ignore.matchSegment tokens entryName.
Proof.
  intros tokens above entryName. cbn [Ignore.matchSegments].
  induction above as [|a above IH]; cbn [app].
  - now rewrite andb_true_r, !orb_false_r.
  - rewrite IH.
    assert (Hnone : match (above ++ [entryName])%list with
                    | [] => true
                    | _ :: _ => false
                    end = false) by (now destruct above).
    rewrite Hnone. now rewrite andb_false_r.
Qed.

Lemma always_ignored_unless_negated_witness :
  only keepLogConfig = []
  /\ (forall r p,
         In r (userRules keepLogConfig gitignoreText) ->
         Ignore.negative r = true ->
         endsWithAlwaysIgnored p ->
         Ignore.ruleTest r p = false)
  /\ main keepLogConfig targetDir gitignoreText projectTree []
     = main keepLogConfig targetDir gitignoreText (withoutAlwaysIgnored projectTree) [].
Proof.
  assert (H1 : only keepLogConfig = []) by reflexivity.
  assert (H2 : forall r p,
             In r (userRules keepLogConfig gitignoreText) ->
             Ignore.negative r = true ->
             endsWithAlwaysIgnored p ->
             Ignore.ruleTest r p = false).
  { intros r p Hin Hneg [above [entryName [Hname Hseg]]].
    change (userRules keepLogConfig gitignoreText)
      with [Ignore.createRule "/build"; Ignore.createRule "*.tmp";
            Ignore.createRule "*.log"; Ignore.createRule "!keep.log"] in Hin.
    destruct Hin as [<-|[<-|[<-|[<-|[]]]]]; try discriminate Hneg.
    unfold Ignore.ruleTest. rewrite Hseg.
    change (Ignore.glob (Ignore.createRule "!keep.log"))
      with [Ignore.StarStar; Ignore.Segment (Ignore.parseTokens "keep.log")].
    rewrite matchSegments_last.
    unfold alwaysIgnored, ALWAYS_IGNORE in Hname. cbn [existsb] in Hname.
    repeat (apply orb_true_iff in Hname; destruct Hname as [Hname|Hname];
            [apply String.eqb_eq in Hname; subst entryName; apply andb_false_r|]).
    discriminate Hname. }
  split; [exact H1|split; [exact H2|]].
  exact (always_ignored_unless_negated keepLogConfig targetDir gitignoreText
           projectTree [] H1 H2).
Defined.
